(** * React-to-50 AI service backend: the relay's handlers, embedded and verified

    The repository holds two variants of one Express server:
    [server.js] (chat relay and blob storage endpoints) and a second file
    that adds the OCR + translation endpoint [/extract-text] and changes
    [/test-api].  Each handler is embedded as a function of the values the
    outside world hands to it (request body, provider replies, clock,
    environment variables); what the handler sends back is a [Response].

    JavaScript strings are sequences of UTF-16 code units, so that the
    byte-order mark U+FEFF and the whole white space set of
    [String.prototype.trim] can be written down.  [JSON.parse] and
    [Number.prototype.toString] belong to the runtime, not to the
    repository: the handlers take them as parameters. *)

From Stdlib Require Import ZArith NArith List String Ascii Bool Lia PrimFloat Uint63.
Import ListNotations.
Local Open Scope Z_scope.

Set Implicit Arguments.

(** ** JavaScript strings *)

Module JsString.

Abbreviation code_unit := N.
Abbreviation jsstring := (list N).

(** A string literal of the source, as code units (ASCII literals only). *)
Definition js (s : string) : jsstring :=
  List.map N_of_ascii (list_ascii_of_string s).

Fixpoint eqb (s t : jsstring) : bool :=
  match s, t with
  | [], [] => true
  | c :: s', d :: t' => N.eqb c d && eqb s' t'
  | _, _ => false
  end.

Fixpoint startsWith (s pat : jsstring) : bool :=
  match pat, s with
  | [], _ => true
  | p :: pat', c :: s' => N.eqb c p && startsWith s' pat'
  | _ :: _, [] => false
  end.

Definition length (s : jsstring) : Z := Z.of_nat (List.length s).

(** [s.indexOf(pat)]: the first position at which [pat] occurs, or -1. *)
Fixpoint indexOf_from (s pat : jsstring) (i : Z) : Z :=
  if startsWith s pat then i
  else match s with
       | [] => -1
       | _ :: s' => indexOf_from s' pat (i + 1)
       end.

Definition indexOf (s pat : jsstring) : Z := indexOf_from s pat 0.

(** [s.lastIndexOf(pat)]: the last position at which [pat] occurs, or -1. *)
Fixpoint lastIndexOf_from (s pat : jsstring) (i last : Z) : Z :=
  let last' := if startsWith s pat then i else last in
  match s with
  | [] => last'
  | _ :: s' => lastIndexOf_from s' pat (i + 1) last'
  end.

Definition lastIndexOf (s pat : jsstring) : Z := lastIndexOf_from s pat 0 (-1).

Definition clamp (n len : Z) : Z := Z.min (Z.max n 0) len.

(** [s.substring(start, end)]: both ends clamped to [0, length], swapped
    when [start > end]. *)
Definition substring2 (s : jsstring) (start end_ : Z) : jsstring :=
  let len := length s in
  let a := clamp start len in
  let b := clamp end_ len in
  let from := Z.min a b in
  let to := Z.max a b in
  firstn (Z.to_nat (to - from)) (skipn (Z.to_nat from) s).

(** [s.substring(start)]: the end defaults to the length. *)
Definition substring (s : jsstring) (start : Z) : jsstring :=
  substring2 s start (length s).

(** [s.slice(start)]: a negative start counts from the end. *)
Definition slice (s : jsstring) (start : Z) : jsstring :=
  let len := length s in
  let from := if start <? 0 then Z.max (len + start) 0 else Z.min start len in
  skipn (Z.to_nat from) s.

(** White space and line terminators removed by [trim]. *)
Definition isWhiteSpace (c : code_unit) : bool :=
  ((9 <=? c) && (c <=? 13))%N
  || N.eqb c 32 || N.eqb c 160 || N.eqb c 5760
  || ((8192 <=? c) && (c <=? 8202))%N
  || N.eqb c 8232 || N.eqb c 8233 || N.eqb c 8239 || N.eqb c 8287
  || N.eqb c 12288 || N.eqb c 65279.

Fixpoint trimStart (s : jsstring) : jsstring :=
  match s with
  | c :: s' => if isWhiteSpace c then trimStart s' else s
  | [] => []
  end.

Definition trimEnd (s : jsstring) : jsstring := rev (trimStart (rev s)).

Definition trim (s : jsstring) : jsstring := trimEnd (trimStart s).

(** [c] does not occur in [s]. *)
Definition lacks (c : code_unit) (s : jsstring) : Prop :=
  forallb (fun d => negb (N.eqb d c)) s = true.

End JsString.
Import JsString.

(** ** Values produced by [JSON.parse], ToBoolean, property reads, ToString *)

Module JsValue.

(** An object keeps its members in insertion order; a repeated key is
    resolved in favour of the last member, as [JSON.parse] does. *)
#[warnings="-register-all"]
Inductive JSON :=
| JNull
| JBool (b : bool)
| JNumber (x : float)
| JString (s : jsstring)
| JArray (items : list JSON)
| JObject (members : list (jsstring * JSON)).

(** Errors that reach a [catch] block. *)
Inductive JsError :=
| Error (message : jsstring)
| TypeError
| SyntaxError
| ProviderError (message : jsstring) (code type : option JSON).

Inductive completion (A : Type) :=
| Normal (a : A)
| Throw (e : JsError).
Arguments Normal {A} a.
Arguments Throw {A} e.

Definition bind {A B} (c : completion A) (k : A -> completion B) : completion B :=
  match c with
  | Normal a => k a
  | Throw e => Throw e
  end.

(** ToBoolean: [!v] is [negb (truthy v)]. *)
Definition truthy (v : JSON) : bool :=
  match v with
  | JNull => false
  | JBool b => b
  | JNumber x => negb (PrimFloat.eqb x 0 || PrimFloat.is_nan x)
  | JString s => match s with [] => false | _ => true end
  | JArray _ => true
  | JObject _ => true
  end.

(** ToBoolean of a possibly [undefined] value. *)
Definition truthy_opt (v : option JSON) : bool :=
  match v with
  | None => false
  | Some v => truthy v
  end.

Fixpoint lookup (members : list (jsstring * JSON)) (k : jsstring) : option JSON :=
  match members with
  | [] => None
  | (k', v) :: rest =>
      match lookup rest k with
      | Some w => Some w
      | None => if JsString.eqb k' k then Some v else None
      end
  end.

(** [v.k] for a value that is neither [null] nor [undefined], and a name
    [k] that no prototype defines ([prompt], [regions], [lines], [words],
    [text], [translations]): only an object can hold it; [None] is
    [undefined]. *)
Definition prop (v : JSON) (k : jsstring) : option JSON :=
  match v with
  | JObject members => lookup members k
  | _ => None
  end.

(** [v.k] where [v] may be [null]: reading a property of [null] throws. *)
Definition Get (v : JSON) (k : jsstring) : completion (option JSON) :=
  match v with
  | JNull => Throw TypeError
  | _ => Normal (prop v k)
  end.

Definition isArray (v : JSON) : bool :=
  match v with
  | JArray _ => true
  | _ => false
  end.

End JsValue.
Import JsValue.

Declare Scope js_scope.
Notation "x <- c ;; k" := (bind c (fun x => k))
  (at level 61, c at next level, right associativity) : js_scope.
Notation "c ;;; k" := (bind c (fun _ => k))
  (at level 61, right associativity) : js_scope.
Local Open Scope js_scope.

(** ** The runtime's conversions to string *)

Section Conversions.

Variable Number_toString : float -> jsstring.

(** The parts of [Array.prototype.join], separated by [sep]. *)
Fixpoint join_strings (parts : list jsstring) (sep : jsstring) : jsstring :=
  match parts with
  | [] => []
  | s :: rest =>
      match rest with
      | [] => s
      | _ :: _ => s ++ sep ++ join_strings rest sep
      end
  end.

Definition hasOwn (members : list (jsstring * JSON)) (k : jsstring) : bool :=
  match lookup members k with
  | Some _ => true
  | None => false
  end.

(** ToString.  An array is its elements joined by a comma, [null]
    elements printing as the empty string; an object is
    ["[object Object]"], unless it has an own member [toString], which
    parsed JSON can never make callable, and the conversion throws. *)
Fixpoint ToString (v : JSON) : completion jsstring :=
  match v with
  | JNull => Normal (js "null")
  | JBool true => Normal (js "true")
  | JBool false => Normal (js "false")
  | JNumber x => Normal (Number_toString x)
  | JString s => Normal s
  | JArray items =>
      parts <- (fix each (l : list JSON) : completion (list jsstring) :=
                  match l with
                  | [] => Normal []
                  | x :: rest =>
                      s <- match x with
                           | JNull => Normal []
                           | _ => ToString x
                           end ;;
                      ss <- each rest ;;
                      Normal (s :: ss)
                  end) items ;;
      Normal (join_strings parts (js ","))
  | JObject members =>
      if hasOwn members (js "toString") then Throw TypeError
      else Normal (js "[object Object]")
  end.

(** The method call [v.toString()]. *)
Definition toString (v : JSON) : completion jsstring :=
  match v with
  | JNull => Throw TypeError
  | _ => ToString v
  end.

Fixpoint mapM {A B} (f : A -> completion B) (l : list A) : completion (list B) :=
  match l with
  | [] => Normal []
  | x :: rest => y <- f x ;; ys <- mapM f rest ;; Normal (y :: ys)
  end.

(** One element of [items.join(sep)]: [undefined] and [null] are empty. *)
Definition element_string (v : option JSON) : completion jsstring :=
  match v with
  | None => Normal []
  | Some JNull => Normal []
  | Some v => ToString v
  end.

(** [items.join(sep)] on an array whose elements may be [undefined]. *)
Definition join (items : list (option JSON)) (sep : jsstring) : completion jsstring :=
  parts <- mapM element_string items ;;
  Normal (join_strings parts sep).

End Conversions.

(** ** What a handler sends *)

Record Response := { status : Z; body : JSON }.

(** [res.status(code).json({ error: msg })] *)
Definition error_body (msg : jsstring) : JSON :=
  JObject [(js "error", JString msg)].

(** ** A reference reader for JSON text

    [JSON.parse] itself is a parameter of the handlers.  To run them on
    concrete provider bodies, this reader covers the JSON grammar except
    for numbers with a fraction or an exponent and integers of 2^53 or
    more, which it refuses. *)

Module JsonText.

(** White space of the JSON grammar: space, tab, line feed, carriage return. *)
Definition isJsonSpace (c : code_unit) : bool :=
  N.eqb c 32 || N.eqb c 9 || N.eqb c 10 || N.eqb c 13.

Fixpoint skip_ws (s : jsstring) : jsstring :=
  match s with
  | c :: s' => if isJsonSpace c then skip_ws s' else s
  | [] => []
  end.

Definition hex_digit (c : code_unit) : option N :=
  if (48 <=? c)%N && (c <=? 57)%N then Some (c - 48)%N
  else if (65 <=? c)%N && (c <=? 70)%N then Some (c - 55)%N
  else if (97 <=? c)%N && (c <=? 102)%N then Some (c - 87)%N
  else None.

Definition hex4 (a b c d : code_unit) : option code_unit :=
  match hex_digit a, hex_digit b, hex_digit c, hex_digit d with
  | Some x, Some y, Some z, Some w => Some (((x * 16 + y) * 16 + z) * 16 + w)%N
  | _, _, _, _ => None
  end.

(** The characters of a string after its opening quote, up to the closing
    one; [acc] holds the characters read so far, last one first. *)
Fixpoint string_body (s acc : jsstring) : option (jsstring * jsstring) :=
  match s with
  | [] => None
  | 34%N :: rest => Some (rev acc, rest)
  | 92%N :: rest =>
      match rest with
      | 34%N :: r => string_body r (34%N :: acc)
      | 92%N :: r => string_body r (92%N :: acc)
      | 47%N :: r => string_body r (47%N :: acc)
      | 98%N :: r => string_body r (8%N :: acc)
      | 102%N :: r => string_body r (12%N :: acc)
      | 110%N :: r => string_body r (10%N :: acc)
      | 114%N :: r => string_body r (13%N :: acc)
      | 116%N :: r => string_body r (9%N :: acc)
      | 117%N :: a :: b :: c :: d :: r =>
          match hex4 a b c d with
          | Some u => string_body r (u :: acc)
          | None => None
          end
      | _ => None
      end
  | c :: rest => if (c <? 32)%N then None else string_body rest (c :: acc)
  end.

Definition isDigit (c : code_unit) : bool := (48 <=? c)%N && (c <=? 57)%N.

Fixpoint digits (s : jsstring) (acc : Z) : Z * jsstring :=
  match s with
  | c :: s' => if isDigit c then digits s' (acc * 10 + Z.of_N (c - 48)) else (acc, s)
  | [] => (acc, [])
  end.

(** An integer literal without fraction or exponent, below 2^53. *)
Definition integer (negative : bool) (s : jsstring) : option (JSON * jsstring) :=
  match s with
  | c :: s' =>
      if isDigit c then
        let '(n, rest) := if N.eqb c 48 then (0, s') else digits s 0 in
        let continues :=
          match rest with
          | d :: _ => isDigit d || N.eqb d 46 || N.eqb d 101 || N.eqb d 69
          | [] => false
          end in
        if continues || (9007199254740992 <=? n) then None
        else
          let x := PrimFloat.of_uint63 (Uint63.of_Z n) in
          Some (JNumber (if negative then PrimFloat.opp x else x), rest)
      else None
  | [] => None
  end.

Fixpoint value (fuel : nat) (s : jsstring) : option (JSON * jsstring) :=
  match fuel with
  | O => None
  | S fuel' =>
      match s with
      | 123%N :: r =>
          match skip_ws r with
          | 125%N :: r' => Some (JObject [], r')
          | r1 => members fuel' r1 []
          end
      | 91%N :: r =>
          match skip_ws r with
          | 93%N :: r' => Some (JArray [], r')
          | r1 => elements fuel' r1 []
          end
      | 34%N :: r =>
          match string_body r [] with
          | Some (str, r') => Some (JString str, r')
          | None => None
          end
      | 116%N :: 114%N :: 117%N :: 101%N :: r => Some (JBool true, r)
      | 102%N :: 97%N :: 108%N :: 115%N :: 101%N :: r => Some (JBool false, r)
      | 110%N :: 117%N :: 108%N :: 108%N :: r => Some (JNull, r)
      | 45%N :: r => integer true r
      | _ => integer false s
      end
  end
with members (fuel : nat) (s : jsstring) (acc : list (jsstring * JSON))
  : option (JSON * jsstring) :=
  match fuel with
  | O => None
  | S fuel' =>
      match s with
      | 34%N :: r =>
          match string_body r [] with
          | Some (k, r1) =>
              match skip_ws r1 with
              | 58%N :: r2 =>
                  match value fuel' (skip_ws r2) with
                  | Some (v, r3) =>
                      match skip_ws r3 with
                      | 44%N :: r4 => members fuel' (skip_ws r4) (acc ++ [(k, v)])
                      | 125%N :: r4 => Some (JObject (acc ++ [(k, v)]), r4)
                      | _ => None
                      end
                  | None => None
                  end
              | _ => None
              end
          | None => None
          end
      | _ => None
      end
  end
with elements (fuel : nat) (s : jsstring) (acc : list JSON)
  : option (JSON * jsstring) :=
  match fuel with
  | O => None
  | S fuel' =>
      match value fuel' s with
      | Some (v, r1) =>
          match skip_ws r1 with
          | 44%N :: r2 => elements fuel' (skip_ws r2) (acc ++ [v])
          | 93%N :: r2 => Some (JArray (acc ++ [v]), r2)
          | _ => None
          end
      | None => None
      end
  end.

(** The whole text is one value, white space allowed around it. *)
Definition parse (s : jsstring) : option JSON :=
  let s1 := skip_ws s in
  match value (S (List.length s1)) s1 with
  | Some (v, rest) =>
      match skip_ws rest with
      | [] => Some v
      | _ :: _ => None
      end
  | None => None
  end.

(** Decimal digits of a natural number, for printing small integers. *)
Fixpoint decimal (fuel : nat) (n : Z) (acc : jsstring) : jsstring :=
  match fuel with
  | O => acc
  | S fuel' =>
      let acc' := (48 + Z.to_N (n mod 10))%N :: acc in
      if n <? 10 then acc' else decimal fuel' (n / 10) acc'
  end.

(** [Number.prototype.toString] on the integers below 2^53 that [parse]
    produces; any other number prints as ["NaN"] here. *)
Definition number_toString (x : float) : jsstring :=
  if PrimFloat.eqb x 0 then js "0"
  else
    let '(m, e) := PrimFloat.frshiftexp (PrimFloat.abs x) in
    let n := Uint63.to_Z (PrimFloat.normfr_mantissa m) in
    let k := Uint63.to_Z e - 2101 in
    let i := Z.shiftr n (53 - k) in
    if PrimFloat.is_nan x || PrimFloat.is_infinity x || (k <? 1) || (53 <? k)
       || negb (Z.eqb (Z.shiftl i (53 - k)) n)
    then js "NaN"
    else (if PrimFloat.ltb x 0 then js "-" else []) ++ decimal 20 i [].

End JsonText.
(** A JSON text written with ['] where the text has a double quote. *)
Definition jsq (s : string) : jsstring :=
  List.map (fun c => if N.eqb c 39 then 34%N else c) (js s).

(** A time value or a difference of two, as a Number; exact below 2^53. *)
Definition Number_of_Z (z : Z) : float :=
  if z <? 0 then PrimFloat.opp (PrimFloat.of_uint63 (Uint63.of_Z (- z)))
  else PrimFloat.of_uint63 (Uint63.of_Z z).

(** ** Start-up: the required environment variables (both variants) *)

Module Bootstrap.

(** [process.env]: a variable is absent ([None]) or holds a string. *)
Definition Env := jsstring -> option jsstring.

Definition requiredEnvVars : list jsstring :=
  [ js "ANTHROPIC_API_KEY";
    js "AZURE_STORAGE_ACCOUNT_NAME";
    js "AZURE_STORAGE_ACCOUNT_KEY";
    js "AZURE_CONTAINER_NAME" ].

(** What the process does that can be seen from outside, in order. *)
Inductive Event :=
| ConsoleError (line : jsstring)
| Exit (code : Z)
| Listen (port : JSON).

(** [!process.env[key]]: [undefined] and the empty string are falsy. *)
Definition missing (env : Env) (key : jsstring) : bool :=
  match env key with
  | None => true
  | Some [] => true
  | Some (_ :: _) => false
  end.

(** [console.error(`X Missing environment variable: ${key}`); process.exit(1);] *)
Definition report (key : jsstring) : list Event :=
  [ConsoleError (js "X Missing environment variable: " ++ key); Exit 1].

(** [requiredEnvVars.forEach(...)]: [process.exit(1)] ends the process at
    the first missing key, so no later key is looked at. *)
Fixpoint forEach (env : Env) (keys : list jsstring) : list Event :=
  match keys with
  | [] => []
  | key :: rest => if missing env key then report key else forEach env rest
  end.

(** [process.env.PORT || 5000] *)
Definition PORT (env : Env) : JSON :=
  match env (js "PORT") with
  | Some (c :: s) => JString (c :: s)
  | _ => JNumber 5000
  end.

(** The script from the check to [app.listen(PORT)]; the statements in
    between build clients and register routes and are not events. *)
Definition main (env : Env) : list Event :=
  match forEach env requiredEnvVars with
  | [] => [Listen (PORT env)]
  | events => events
  end.

Definition exited (events : list Event) : Prop :=
  exists code, code <> 0 /\ In (Exit code) events.

Definition listened (events : list Event) : Prop :=
  exists port, In (Listen port) events.

Definition present (env : Env) (key : jsstring) : Prop := env key <> None.

End Bootstrap.

(** ** Chat relay: [validateRequest], [/ask], [/test-api] *)

Inductive Variant :=
| ServerJs      (* server.js *)
| OcrVariant.   (* the variant with /extract-text *)

Module Chat.

(** The argument of [anthropic.messages.create]: the model, the token
    budget and the content of the single user message. *)
Record ChatRequest := {
  model : jsstring;
  max_tokens : Z;
  content : option JSON
}.

(** The provider's reply, of which the handlers read [content]. *)
Record Message := { message_content : JSON }.

Section Handlers.

Variable Number_toString : float -> jsstring.

(** The provider: a reply, or an error thrown by the client library. *)
Variable create : ChatRequest -> completion Message.

(** [error.message] of an error object raised by the engine itself. *)
Variable engine_message : JsError -> jsstring.

Definition error_message (e : JsError) : jsstring :=
  match e with
  | Error m => m
  | ProviderError m _ _ => m
  | _ => engine_message e
  end.

Definition error_code (e : JsError) : option JSON :=
  match e with
  | ProviderError _ c _ => c
  | _ => None
  end.

Definition error_type (e : JsError) : option JSON :=
  match e with
  | ProviderError _ _ t => t
  | _ => None
  end.

(** [typeof prompt !== "string" || prompt.trim().length === 0] *)
Definition invalidPrompt (prompt : option JSON) : bool :=
  match prompt with
  | Some (JString s) => JsString.length (trim s) =? 0
  | _ => true
  end.

(** The middleware: [Some r] when it answers itself, [None] for [next()].
    Destructuring [req.body] throws when the body is [null]. *)
Definition validateRequest (body : JSON) : completion (option Response) :=
  prompt <- Get body (js "prompt") ;;
  if invalidPrompt prompt
  then Normal (Some {| status := 400;
                       body := error_body (js "Invalid prompt format") |})
  else Normal None.

(** The last middleware, [app.use((err, req, res, next) => ...)]. *)
Definition errorMiddleware : Response :=
  {| status := 500; body := error_body (js "Something went wrong!") |}.

(** A member whose value is [undefined] is left out by [res.json]. *)
Definition member (k : jsstring) (v : option JSON) : list (jsstring * JSON) :=
  match v with
  | Some v => [(k, v)]
  | None => []
  end.

(** The request of [/ask]: the model, the budget, the prompt as the only
    message. *)
Definition ask_request (prompt : option JSON) : ChatRequest :=
  {| model := js "claude-3-5-sonnet-20241022";
     max_tokens := 1024;
     content := prompt |}.

(** The handler of [POST /ask], after the middleware called [next()];
    the body it destructures is the one the middleware has read, so the
    read cannot throw here. *)
Definition askHandler (body : JSON) : completion Response * list ChatRequest :=
  match Get body (js "prompt") with
  | Throw e => (Throw e, [])
  | Normal prompt =>
      let request := ask_request prompt in
      match create request with
      | Normal message =>
          (Normal {| status := 200;
                     body := JObject [(js "response", message_content message)] |},
           [request])
      | Throw error =>
          (Normal {| status := 500;
                     body := JObject
                       [(js "error", JString (js "Failed to fetch response from Claude"));
                        (js "details", JString (error_message error))] |},
           [request])
      end
  end.

Definition finish (r : completion Response) : Response :=
  match r with
  | Normal r => r
  | Throw _ => errorMiddleware
  end.

(** [app.post("/ask", validateRequest, handler)]: the response and the
    calls made to the provider. *)
Definition ask (body : JSON) : Response * list ChatRequest :=
  match validateRequest body with
  | Throw e => (errorMiddleware, [])
  | Normal (Some r) => (r, [])
  | Normal None => let '(r, calls) := askHandler body in (finish r, calls)
  end.

(** [message.content.join(" ")] *)
Definition content_join (content : JSON) : completion jsstring :=
  match content with
  | JArray items => join Number_toString (List.map Some items) (js " ")
  | _ => Throw TypeError
  end.

(** The [content] member of the reply of [/test-api]: [message.content]
    in server.js, [message.content.join(" ")] in the other variant. *)
Definition test_api_content (v : Variant) (message : Message) : completion JSON :=
  match v with
  | ServerJs => Normal (message_content message)
  | OcrVariant => s <- content_join (message_content message) ;; Normal (JString s)
  end.

Definition test_api_request (v : Variant) : ChatRequest :=
  match v with
  | ServerJs => {| model := js "claude-3-5-sonnet-20241022"; max_tokens := 10;
                   content := Some (JString (js "test")) |}
  | OcrVariant => {| model := js "claude-3.5-sonnet"; max_tokens := 50;
                     content := Some (JString (js "test")) |}
  end.

(** [GET /test-api]; [startTime] and [endTime] are the two readings of
    [Date.now()]. *)
Definition test_api (v : Variant) (startTime endTime : Z) : Response * list ChatRequest :=
  let request := test_api_request v in
  let outcome :=
    message <- create request ;;
    let responseTime := endTime - startTime in
    c <- test_api_content v message ;;
    Normal {| status := 200;
              body := JObject [(js "status", JString (js "success"));
                               (js "responseTime", JNumber (Number_of_Z responseTime));
                               (js "content", c)] |} in
  match outcome with
  | Normal r => (r, [request])
  | Throw error =>
      ({| status := 500;
          body := JObject ([(js "status", JString (js "error"));
                            (js "error", JString (error_message error))]
                           ++ member (js "code") (error_code error)
                           ++ member (js "type") (error_type error)) |},
       [request])
  end.

End Handlers.

End Chat.

(** ** Blob storage: [/generate-sas-url/:blobName] and [/get-images]
    (the same code in both variants) *)

Module Storage.

(** [new Date(tv)]: a time value in milliseconds, or [None] for an invalid
    date when [tv] is outside the range of dates. *)
Definition new_Date (tv : Z) : option Z :=
  if Z.abs tv <=? 8640000000000000 then Some tv else None.

(** The argument of [blobClient.generateSasUrl]. *)
Record SasOptions := {
  permissions : jsstring;
  expiresOn : option Z
}.

(** One request for a signed URL: the blob and the options. *)
Record SasRequest := {
  blob : jsstring;
  options : SasOptions
}.

(** [containerClient.listBlobsFlat()]: the names of the blobs it yields
    and, when the enumeration breaks off, the error it throws then. *)
Record Listing := {
  names : list jsstring;
  failure : option JsError
}.

(** Canonicalisation of a code unit for a pattern with the [i] flag and
    without the [u] flag, on ASCII.  A code unit of 128 or more never
    canonicalises to one below 128, so against the ASCII letters of the
    pattern the comparison is decided by this function. *)
Definition canonicalize (c : code_unit) : code_unit :=
  if (97 <=? c)%N && (c <=? 122)%N then (c - 32)%N else c.

(** The whole of [s] is [pat], letter case aside. *)
Fixpoint matches_ci (s pat : jsstring) : bool :=
  match s, pat with
  | [], [] => true
  | c :: s', p :: pat' => N.eqb (canonicalize c) (canonicalize p) && matches_ci s' pat'
  | _, _ => false
  end.

(** The alternatives of the pattern. *)
Definition imageExtensions : list jsstring :=
  [js "jpg"; js "jpeg"; js "png"; js "gif"; js "jfif"].

(** The pattern [\.(jpg|jpeg|png|gif|jfif)$] tried at the start of [s]. *)
Definition image_at (s : jsstring) : bool :=
  match s with
  | 46%N :: ext => existsb (matches_ci ext) imageExtensions
  | _ => false
  end.

(** [name.match(/\.(jpg|jpeg|png|gif|jfif)$/i)] is not [null]: the
    pattern is tried at every position, from the left. *)
Fixpoint image_regex (name : jsstring) : bool :=
  image_at name
  || match name with
     | [] => false
     | _ :: rest => image_regex rest
     end.

Section Handlers.

(** The storage client's signer: a URL, or an error. *)
Variable sign : SasRequest -> completion jsstring.

(** [error.message] of what the storage client throws. *)
Variable error_message : JsError -> jsstring.

(** [{ permissions: p, expiresOn: new Date(new Date().valueOf() + 3600 * 1000) }],
    [now] being the reading of the clock. *)
Definition sasOptions (p : jsstring) (now : Z) : SasOptions :=
  {| permissions := p; expiresOn := new_Date (now + 3600 * 1000) |}.

(** [GET /generate-sas-url/:blobName]: the response and the requests made
    to the signer. *)
Definition generate_sas_url (now : Z) (blobName : jsstring) : Response * list SasRequest :=
  let request := {| blob := blobName; options := sasOptions (js "w") now |} in
  match sign request with
  | Normal sasToken =>
      ({| status := 200; body := JObject [(js "sasUrl", JString sasToken)] |}, [request])
  | Throw error =>
      ({| status := 500; body := error_body (error_message error) |}, [request])
  end.

(** The variables of the loop of [/get-images], and the requests made to
    the signer so far. *)
Record LoopState := {
  imageUrls : list jsstring;
  blobCount : Z;
  requests : list SasRequest
}.

(** The clock of one request: the reading taken for the [k]-th signature. *)
Variable clock : nat -> Z.

(** [for await (const blob of containerClient.listBlobsFlat()) { ... }]:
    the state when the loop ends, and the error if it ended by one. *)
Fixpoint loop (blobs : list jsstring) (stop : option JsError) (st : LoopState)
  : LoopState * option JsError :=
  match blobs with
  | [] => (st, stop)
  | name :: rest =>
      let count := blobCount st + 1 in
      if image_regex name then
        let now := clock (List.length (requests st)) in
        let request := {| blob := name; options := sasOptions (js "r") now |} in
        match sign request with
        | Normal sasToken =>
            loop rest stop {| imageUrls := imageUrls st ++ [sasToken];
                              blobCount := count;
                              requests := requests st ++ [request] |}
        | Throw error =>
            ({| imageUrls := imageUrls st;
                blobCount := count;
                requests := requests st ++ [request] |}, Some error)
        end
      else
        loop rest stop {| imageUrls := imageUrls st;
                          blobCount := count;
                          requests := requests st |}
  end.

Definition start : LoopState :=
  {| imageUrls := []; blobCount := 0; requests := [] |}.

(** [GET /get-images]: the response and the requests made to the signer. *)
Definition get_images (listing : Listing) : Response * list SasRequest :=
  match loop (names listing) (failure listing) start with
  | (st, Some error) =>
      ({| status := 500; body := error_body (error_message error) |}, requests st)
  | (st, None) =>
      if Z.of_nat (List.length (imageUrls st)) =? 0
      then ({| status := 404; body := error_body (js "No images found") |}, requests st)
      else ({| status := 200; body := JArray (List.map JString (imageUrls st)) |},
            requests st)
  end.

End Handlers.

(** The requests that a listing is expected to cause: one per matching
    name, in order, the [k]-th with the [k]-th reading of the clock. *)
Fixpoint expected_requests (clock : nat -> Z) (k : nat) (matching : list jsstring)
  : list SasRequest :=
  match matching with
  | [] => []
  | name :: rest =>
      {| blob := name;
         options := {| permissions := js "r";
                       expiresOn := new_Date (clock k + 3600 * 1000) |} |}
      :: expected_requests clock (S k) rest
  end.

(** The clock readings for which one hour later is still a date. *)
Definition inRange (now : Z) : Prop :=
  -8640000000000000 <= now <= 8640000000000000 - 3600 * 1000.

(** The words of the specification: the name ends with a dot and one of
    the five extensions, in any letter case. *)
Definition lower (c : code_unit) : code_unit :=
  if (65 <=? c)%N && (c <=? 90)%N then (c + 32)%N else c.

Definition lowercase (p : code_unit) : Prop := (97 <= p <= 122)%N.

Definition has_image_extension (name : jsstring) : Prop :=
  exists stem ext,
    name = stem ++ 46%N :: ext /\ In (List.map lower ext) imageExtensions.

End Storage.

(** ** OCR and translation: [/extract-text] (second variant only) *)

Module ExtractText.

(** [req.file], as the upload middleware leaves it. *)
Record File := { path : jsstring }.

Definition Buffer := list N.

(** What the handler reaches outside the process: the file system and the
    two providers.  A provider call yields [response.data], which the HTTP
    client leaves as a string or hands over already parsed. *)
Record World := {
  readFileSync : jsstring -> completion Buffer;
  visionPost : Buffer -> completion JSON;
  translatorPost : jsstring -> completion JSON;
  unlinkSync : jsstring -> completion unit
}.

Definition msgNoFile : jsstring := js "No image file uploaded.".
Definition msgInvalidVision : jsstring := js "Invalid response from Vision API.".
Definition msgGeneric : jsstring := js "An error occurred while processing the image.".

Section Handler.

Variable JSON_parse : jsstring -> option JSON.
Variable Number_toString : float -> jsstring.

(** [JSON.parse(s)], which throws a [SyntaxError] on a text it refuses. *)
Definition parse (s : jsstring) : completion JSON :=
  match JSON_parse s with
  | Some v => Normal v
  | None => Throw SyntaxError
  end.

(** *** The OCR reply *)

Definition jsonStartIndex (rawResponse : jsstring) : Z :=
  indexOf rawResponse (js "{").

Definition jsonString (rawResponse : jsstring) : jsstring :=
  substring rawResponse (jsonStartIndex rawResponse).

Definition visionData (rawResponse : jsstring) : completion JSON :=
  parse (jsonString rawResponse).

(** [!visionData || !visionData.regions || !Array.isArray(visionData.regions)] *)
Definition invalidVision (data : JSON) : bool :=
  negb (truthy data)
  || negb (truthy_opt (prop data (js "regions")))
  || negb (match prop data (js "regions") with
           | Some r => isArray r
           | None => false
           end).

(** [v.forEach] and [v.map] exist on arrays only; calling them on
    anything else, [undefined] included, throws. *)
Definition asArray (v : option JSON) : completion (list JSON) :=
  match v with
  | Some (JArray items) => Normal items
  | _ => Throw TypeError
  end.

(** [line.words.map((word) => word.text).join(" ") + " "] *)
Definition lineText (line : JSON) : completion jsstring :=
  words <- Get line (js "words") ;;
  items <- asArray words ;;
  texts <- mapM (fun word => Get word (js "text")) items ;;
  joined <- join Number_toString texts (js " ") ;;
  Normal (joined ++ js " ").

(** [region.lines.forEach((line) => { extractedText += ... })] *)
Fixpoint forEachLine (lines : list JSON) (extractedText : jsstring) : completion jsstring :=
  match lines with
  | [] => Normal extractedText
  | line :: rest =>
      t <- lineText line ;;
      forEachLine rest (extractedText ++ t)
  end.

(** [visionData.regions.forEach((region) => { region.lines.forEach(...) })] *)
Fixpoint forEachRegion (regions : list JSON) (extractedText : jsstring) : completion jsstring :=
  match regions with
  | [] => Normal extractedText
  | region :: rest =>
      lines <- Get region (js "lines") ;;
      items <- asArray lines ;;
      text <- forEachLine items extractedText ;;
      forEachRegion rest text
  end.

(** *** The translation reply *)

(** From [indexOf("[")] to [substring(0, jsonEndIndex)]. *)
Definition cleanJsonString (rawResponseData : jsstring) : completion jsstring :=
  let jsonStart := indexOf rawResponseData (js "[") in
  if jsonStart =? -1 then Throw (Error (js "No JSON found in the response."))
  else
    let jsonStringData := trim (slice rawResponseData jsonStart) in
    let jsonEndIndex := lastIndexOf jsonStringData (js "]") + 1 in
    Normal (substring2 jsonStringData 0 jsonEndIndex).

(** [v?.[0]] for a [v] that is neither [null] nor [undefined]. *)
Definition index0 (v : JSON) : option JSON :=
  match v with
  | JArray (x :: _) => Some x
  | JString (c :: _) => Some (JString [c])
  | JObject members => lookup members (js "0")
  | _ => None
  end.

(** [translateData[0]?.translations?.[0]] for a non-empty array whose
    first element is [first]. *)
Definition firstTranslation (first : JSON) : option JSON :=
  match first with
  | JNull => None
  | _ =>
      match prop first (js "translations") with
      | None => None
      | Some JNull => None
      | Some translations => index0 translations
      end
  end.

(** The checks after [JSON.parse(cleanJsonString)], up to
    [firstTranslation.text]. *)
Definition translatedTextOf (translateData : JSON) : completion JSON :=
  match translateData with
  | JArray (first :: _) =>
      match firstTranslation first with
      | Some t =>
          if truthy t && truthy_opt (prop t (js "text")) then
            match prop t (js "text") with
            | Some text => Normal text
            | None => Throw (Error (js "Translation response does not contain text."))
            end
          else Throw (Error (js "Translation response does not contain text."))
      | None => Throw (Error (js "Translation response does not contain text."))
      end
  | _ => Throw (Error (js "Invalid or empty response from Azure Translator API."))
  end.

(** The translation stage on the raw reply: bounded substring, parse,
    checks, text of the first translation. *)
Definition translatedText (rawResponseData : jsstring) : completion JSON :=
  clean <- cleanJsonString rawResponseData ;;
  translateData <- parse clean ;;
  translatedTextOf translateData.

(** *** The handler *)

(** The first half of the [try] block, from [fs.readFileSync] to the test
    of [extractedText]: either the handler has answered already ([inl]),
    or the text is there ([inr]). *)
Definition ocr (w : World) (imagePath : jsstring) : completion (Response + jsstring) :=
  imageBuffer <- readFileSync w imagePath ;;
  data <- visionPost w imageBuffer ;;
  rawResponse <- toString Number_toString data ;;
  vision <- visionData rawResponse ;;
  if invalidVision vision then
    Normal (inl {| status := 500; body := error_body msgInvalidVision |})
  else
    regions <- asArray (prop vision (js "regions")) ;;
    text <- forEachRegion regions [] ;;
    let extractedText := trim text in
    if negb (truthy (JString extractedText)) then
      Throw (Error (js "No text extracted from the image."))
    else Normal (inr extractedText).

(** The second half, from the call of the translator to [res.json]. *)
Definition translate (w : World) (imagePath extractedText : jsstring) : completion Response :=
  tdata <- translatorPost w extractedText ;;
  rawResponseData <- toString Number_toString tdata ;;
  translated <- translatedText rawResponseData ;;
  unlinkSync w imagePath ;;;
  Normal {| status := 200;
            body := JObject [(js "extractedText", JString extractedText);
                             (js "translatedText", translated)] |}.

(** The body of the [try] block once [req.file] is there. *)
Definition pipeline (w : World) (file : File) : completion Response :=
  let imagePath := path file in
  r <- ocr w imagePath ;;
  match r with
  | inl answered => Normal answered
  | inr extractedText => translate w imagePath extractedText
  end.

(** [POST /extract-text]: no file, the [try] block, the [catch] block. *)
Definition extract_text (w : World) (file : option File) : Response :=
  match file with
  | None => {| status := 400; body := error_body msgNoFile |}
  | Some f =>
      match pipeline w f with
      | Normal r => r
      | Throw _ => {| status := 500; body := error_body msgGeneric |}
      end
  end.

(** [res.status(500).json({ error: m })] *)
Definition failed (m : jsstring) : Response :=
  {| status := 500; body := error_body m |}.

(** The complete result: [res.json({ extractedText, translatedText })]. *)
Definition complete (extractedText : jsstring) (translated : JSON) : Response :=
  {| status := 200;
     body := JObject [(js "extractedText", JString extractedText);
                      (js "translatedText", translated)] |}.

(** The ways in which a request with a file fails, each with the message
    the caller is to receive.  [OcrReplyUnreadable] covers a reply that
    cannot be turned into a string or that [JSON.parse] refuses;
    [OcrTextMalformed] a region without lines or a line without words;
    [InvalidTranslation] a reply without bracket, one that [JSON.parse]
    refuses, and one of the wrong shape. *)
Inductive Failure (w : World) (f : File) : jsstring -> Prop :=
| UnreadableFile e :
    readFileSync w (path f) = Throw e ->
    Failure w f msgGeneric
| OcrProviderError buffer e :
    readFileSync w (path f) = Normal buffer ->
    visionPost w buffer = Throw e ->
    Failure w f msgGeneric
| OcrReplyUnreadable buffer data e :
    readFileSync w (path f) = Normal buffer ->
    visionPost w buffer = Normal data ->
    (raw <- toString Number_toString data ;; visionData raw) = Throw e ->
    Failure w f msgGeneric
| InvalidOcrShape buffer data vision :
    readFileSync w (path f) = Normal buffer ->
    visionPost w buffer = Normal data ->
    (raw <- toString Number_toString data ;; visionData raw) = Normal vision ->
    invalidVision vision = true ->
    Failure w f msgInvalidVision
| OcrTextMalformed buffer data vision e :
    readFileSync w (path f) = Normal buffer ->
    visionPost w buffer = Normal data ->
    (raw <- toString Number_toString data ;; visionData raw) = Normal vision ->
    invalidVision vision = false ->
    (regions <- asArray (prop vision (js "regions")) ;; forEachRegion regions [])
      = Throw e ->
    Failure w f msgGeneric
| EmptyText buffer data vision text :
    readFileSync w (path f) = Normal buffer ->
    visionPost w buffer = Normal data ->
    (raw <- toString Number_toString data ;; visionData raw) = Normal vision ->
    invalidVision vision = false ->
    (regions <- asArray (prop vision (js "regions")) ;; forEachRegion regions [])
      = Normal text ->
    trim text = [] ->
    Failure w f msgGeneric
| TranslationProviderError text e :
    ocr w (path f) = Normal (inr text) ->
    translatorPost w text = Throw e ->
    Failure w f msgGeneric
| InvalidTranslation text tdata e :
    ocr w (path f) = Normal (inr text) ->
    translatorPost w text = Normal tdata ->
    (raw <- toString Number_toString tdata ;; translatedText raw) = Throw e ->
    Failure w f msgGeneric
| CleanupError text tdata translated e :
    ocr w (path f) = Normal (inr text) ->
    translatorPost w text = Normal tdata ->
    (raw <- toString Number_toString tdata ;; translatedText raw) = Normal translated ->
    unlinkSync w (path f) = Throw e ->
    Failure w f msgGeneric.

End Handler.

End ExtractText.

(** ** Concrete replies, listings and environments *)

Module Samples.

Import ExtractText.

(** Three junk code units, as a byte-order mark read byte by byte. *)
Definition ocrPrefix : jsstring := [239%N; 187%N; 191%N].

Definition ocrObject : jsstring :=
  jsq "{'language':'es','regions':[{'lines':[{'words':[{'text':'Hola'},{'text':'mundo'}]}]}]}".

Definition translationArray : jsstring :=
  jsq "[{'translations':[{'text':'Hello world','to':'en'}]}]".

Definition wrapperBefore : jsstring := js "response: ".
Definition wrapperAfter : jsstring := js " (end)  ".

Definition upload : File := {| path := js "uploads/3f2a" |}.

(** Both providers answer, with wrapped replies. *)
Definition worldFine : World :=
  {| readFileSync := fun _ => Normal [137%N; 80%N; 78%N; 71%N];
     visionPost := fun _ => Normal (JString (ocrPrefix ++ ocrObject));
     translatorPost := fun _ =>
       Normal (JString (wrapperBefore ++ translationArray ++ wrapperAfter));
     unlinkSync := fun _ => Normal tt |}.

(** The OCR provider refuses the image. *)
Definition worldOcrRefuses : World :=
  {| readFileSync := fun _ => Normal [];
     visionPost := fun _ =>
       Throw (ProviderError (js "Request failed with status code 400") None None);
     translatorPost := fun _ => Normal (JString translationArray);
     unlinkSync := fun _ => Normal tt |}.

(** The OCR provider answers with an object without regions. *)
Definition worldNoRegions : World :=
  {| readFileSync := fun _ => Normal [];
     visionPost := fun _ => Normal (JString (ocrPrefix ++ jsq "{'language':'es'}"));
     translatorPost := fun _ => Normal (JString translationArray);
     unlinkSync := fun _ => Normal tt |}.

(** The translator answers with a text without any bracket. *)
Definition worldNoBracket : World :=
  {| readFileSync := fun _ => Normal [];
     visionPost := fun _ => Normal (JString (ocrPrefix ++ ocrObject));
     translatorPost := fun _ => Normal (JString (js "Service Unavailable"));
     unlinkSync := fun _ => Normal tt |}.

(** All four variables hold a value. *)
Definition envComplete : Bootstrap.Env := fun _ => Some (js "value").

(** All four variables are there, the container name is empty. *)
Definition envEmptyContainer : Bootstrap.Env :=
  fun key =>
    if JsString.eqb key (js "AZURE_CONTAINER_NAME") then Some []
    else Some (js "value").

(** The storage key is absent. *)
Definition envNoStorageKey : Bootstrap.Env :=
  fun key =>
    if JsString.eqb key (js "AZURE_STORAGE_ACCOUNT_KEY") then None
    else Some (js "value").

(** One text block, as the chat provider sends it. *)
Definition textBlock : JSON :=
  JObject [(js "type", JString (js "text")); (js "text", JString (js "Hello"))].

Definition reply : Chat.Message := {| Chat.message_content := JArray [textBlock] |}.

Definition createReplies : Chat.ChatRequest -> completion Chat.Message :=
  fun _ => Normal reply.

Definition engineMessage : JsError -> jsstring := fun _ => js "TypeError".

Definition bodyHello : JSON := JObject [(js "prompt", JString (js "  Hello  "))].

(** A signer that always answers. *)
Definition urlOf (r : Storage.SasRequest) : jsstring :=
  js "https://account.blob.core.windows.net/images/" ++ Storage.blob r
  ++ js "?sp=" ++ Storage.permissions (Storage.options r).

Definition signer : Storage.SasRequest -> completion jsstring :=
  fun r => Normal (urlOf r).

Definition errorMessage : JsError -> jsstring := fun _ => js "error".

Definition clockFrom (k : nat) : Z := 1700000000000 + Z.of_nat k.

Definition listingMixed : Storage.Listing :=
  {| Storage.names := [js "cat.JPG"; js "notes.txt"; js "dog.jpeg"; js "old.png.bak"];
     Storage.failure := None |}.

Definition listingNoImages : Storage.Listing :=
  {| Storage.names := [js "notes.txt"; js "readme.md"; js "jpg"];
     Storage.failure := None |}.

End Samples.

(** ** The shape of an OCR reply that the text loop reads without error *)

Module OcrReply.

(** A word object whose [text] is the string [t]. *)
Definition WordOf (word : JSON) (t : jsstring) : Prop :=
  prop word (js "text") = Some (JString t).

(** A line object whose [words] are word objects with the texts [ts]. *)
Definition LineOf (line : JSON) (ts : list jsstring) : Prop :=
  exists words, prop line (js "words") = Some (JArray words) /\ Forall2 WordOf words ts.

(** A region object whose [lines] are line objects. *)
Definition RegionOf (region : JSON) (lines : list (list jsstring)) : Prop :=
  exists items,
    prop region (js "lines") = Some (JArray items) /\ Forall2 LineOf items lines.

(** What one line adds to [extractedText]: its words with one space
    between them, and one space after. *)
Definition lineString (ts : list jsstring) : jsstring :=
  join_strings ts (js " ") ++ js " ".

Definition word (t : jsstring) : JSON :=
  JObject [(js "boundingBox", JString (js "0,0,10,10")); (js "text", JString t)].

Definition line (ts : list jsstring) : JSON :=
  JObject [(js "boundingBox", JString (js "0,0,90,10"));
           (js "words", JArray (List.map word ts))].

Definition region (lines : list (list jsstring)) : JSON :=
  JObject [(js "lines", JArray (List.map line lines))].

End OcrReply.

(** ** [/extract-text] with the calls it makes to the outside *)

Module ExtractTextTrace.

Import ExtractText.

(** The calls of the handler that leave the process, in the order made. *)
Inductive Effect :=
| ReadFile (path : jsstring)
| VisionPost (imageBuffer : Buffer)
| TranslatorPost (extractedText : jsstring)
| Unlink (path : jsstring).

(** A computation with the calls it has made so far. *)
Definition Traced (A : Type) : Type := (list Effect * completion A)%type.

Definition perform {A} (e : Effect) (c : completion A) : Traced A := ([e], c).

Definition silent {A} (c : completion A) : Traced A := ([], c).

Definition andThen {A B} (t : Traced A) (k : A -> Traced B) : Traced B :=
  match t with
  | (es, Normal a) => let '(es', r) := k a in (es ++ es', r)
  | (es, Throw e) => (es, Throw e)
  end.

Section Handler.

Variable JSON_parse : jsstring -> option JSON.
Variable Number_toString : float -> jsstring.

(** From [visionResponse.data.toString()] to the test of
    [extractedText]: no call leaves the process. *)
Definition afterVision (data : JSON) : completion (Response + jsstring) :=
  rawResponse <- toString Number_toString data ;;
  vision <- visionData JSON_parse rawResponse ;;
  if invalidVision vision then
    Normal (inl {| status := 500; body := error_body msgInvalidVision |})
  else
    regions <- asArray (prop vision (js "regions")) ;;
    text <- forEachRegion Number_toString regions [] ;;
    let extractedText := trim text in
    if negb (truthy (JString extractedText)) then
      Throw (Error (js "No text extracted from the image."))
    else Normal (inr extractedText).

Definition ocr (w : World) (imagePath : jsstring) : Traced (Response + jsstring) :=
  andThen (perform (ReadFile imagePath) (readFileSync w imagePath)) (fun imageBuffer =>
  andThen (perform (VisionPost imageBuffer) (visionPost w imageBuffer)) (fun data =>
  silent (afterVision data))).

Definition translate (w : World) (imagePath extractedText : jsstring) : Traced Response :=
  andThen (perform (TranslatorPost extractedText) (translatorPost w extractedText))
    (fun tdata =>
  andThen (silent (rawResponseData <- toString Number_toString tdata ;;
                   translatedText JSON_parse rawResponseData)) (fun translated =>
  andThen (perform (Unlink imagePath) (unlinkSync w imagePath)) (fun _ =>
  silent (Normal (complete extractedText translated))))).

Definition pipeline (w : World) (file : File) : Traced Response :=
  let imagePath := path file in
  andThen (ocr w imagePath) (fun r =>
  match r with
  | inl answered => silent (Normal answered)
  | inr extractedText => translate w imagePath extractedText
  end).

(** [POST /extract-text]: the calls made and the response. *)
Definition extract_text (w : World) (file : option File) : list Effect * Response :=
  match file with
  | None => ([], {| status := 400; body := error_body msgNoFile |})
  | Some f =>
      match pipeline w f with
      | (es, Normal r) => (es, r)
      | (es, Throw _) => (es, {| status := 500; body := error_body msgGeneric |})
      end
  end.

End Handler.

End ExtractTextTrace.

(** ** More concrete inputs *)

Module MoreSamples.

Import ExtractText.

Definition overloaded : JsError :=
  ProviderError (js "529 overloaded") (Some (JNumber 529))
    (Some (JString (js "overloaded_error"))).

Definition createFails : Chat.ChatRequest -> completion Chat.Message :=
  fun _ => Throw overloaded.

(** A reply whose content is one string, not an array of blocks. *)
Definition createText : Chat.ChatRequest -> completion Chat.Message :=
  fun _ => Normal {| Chat.message_content := JString (js "Hello") |}.

Definition messageOf (e : JsError) : jsstring :=
  match e with
  | Error m => m
  | ProviderError m _ _ => m
  | TypeError => js "message.content.join is not a function"
  | SyntaxError => js "Unexpected token"
  end.

Definition denied : JsError := ProviderError (js "AuthorizationFailure") None None.

(** A signer that refuses the blob [dog.jpeg]. *)
Definition signerRefusesDog : Storage.SasRequest -> completion jsstring :=
  fun r =>
    if JsString.eqb (Storage.blob r) (js "dog.jpeg") then Throw denied
    else Normal (Samples.urlOf r).

Definition signerRefuses : Storage.SasRequest -> completion jsstring :=
  fun _ => Throw denied.

Definition listingThree : Storage.Listing :=
  {| Storage.names := [js "cat.JPG"; js "dog.jpeg"; js "owl.png"];
     Storage.failure := None |}.

(** The enumeration breaks off after two names. *)
Definition listingBroken : Storage.Listing :=
  {| Storage.names := [js "cat.JPG"; js "notes.txt"];
     Storage.failure := Some (ProviderError (js "ECONNRESET") None None) |}.

(** The first two variables are there, the last two are not. *)
Definition envTwoMissing : Bootstrap.Env :=
  fun key =>
    if JsString.eqb key (js "ANTHROPIC_API_KEY") then Some (js "sk")
    else if JsString.eqb key (js "AZURE_STORAGE_ACCOUNT_NAME") then Some (js "acct")
    else None.

Definition twoRegions : list JSON :=
  [OcrReply.region [[js "Hola"; js "mundo"]; [js "adios"]];
   OcrReply.region [[js "fin"]]].

(** A reply with an opening bracket and no closing one. *)
Definition truncatedReply : jsstring :=
  Samples.wrapperBefore ++ jsq "[{'translations':".

(** The translator is down. *)
Definition worldTranslatorDown : World :=
  {| readFileSync := fun _ => Normal [137%N; 80%N];
     visionPost := fun _ => Normal (JString (Samples.ocrPrefix ++ Samples.ocrObject));
     translatorPost := fun _ =>
       Throw (ProviderError (js "Request failed with status code 503") None None);
     unlinkSync := fun _ => Normal tt |}.

Definition twoTranslations : JSON :=
  JArray
    [JObject [(js "translations",
               JArray [JObject [(js "text", JString (js "Hello")); (js "to", JString (js "en"))];
                       JObject [(js "text", JString (js "Hallo")); (js "to", JString (js "de"))]])];
     JObject [(js "translations",
               JArray [JObject [(js "text", JString (js "World"))]])]].

(** What the reply of [Samples.worldFine] parses to. *)
Definition ocrRegions : list JSON :=
  [JObject
     [(js "lines",
       JArray
         [JObject
            [(js "words",
              JArray [JObject [(js "text", JString (js "Hola"))];
                      JObject [(js "text", JString (js "mundo"))]])]])]].

Definition ocrMembers : list (jsstring * JSON) :=
  [(js "language", JString (js "es")); (js "regions", JArray ocrRegions)].

End MoreSamples.

(** * Properties *)

Unset Implicit Arguments.

(** ** Facts about the string operations *)

Module JsStringFacts.

Lemma startsWith_single (c : code_unit) (s : jsstring) :
  startsWith s [c] = match s with d :: _ => N.eqb d c | [] => false end.
Proof.
  destruct s as [|d s]; simpl; [reflexivity|].
  destruct s; apply andb_true_r.
Qed.

Lemma lacks_cons (c d : code_unit) (s : jsstring) :
  lacks c (d :: s) -> N.eqb d c = false /\ lacks c s.
Proof.
  unfold lacks; simpl; intros H.
  apply andb_true_iff in H; destruct H as [Hd Hs].
  apply negb_true_iff in Hd; split; assumption.
Qed.

Lemma lacks_app (c : code_unit) (s t : jsstring) :
  lacks c (s ++ t) <-> lacks c s /\ lacks c t.
Proof.
  unfold lacks; rewrite forallb_app; apply andb_true_iff.
Qed.

Lemma lacks_In (c : code_unit) (s : jsstring) :
  lacks c s <-> ~ In c s.
Proof.
  unfold lacks; rewrite forallb_forall; split.
  - intros H I; specialize (H c I); rewrite N.eqb_refl in H; discriminate.
  - intros H d I; apply negb_true_iff, N.eqb_neq; intros E; subst d; exact (H I).
Qed.

Lemma indexOf_from_skip (c : code_unit) (p s : jsstring) :
  lacks c p ->
  forall i, indexOf_from (p ++ s) [c] i = indexOf_from s [c] (i + Z.of_nat (List.length p)).
Proof.
  induction p as [|d p IH]; intros Hp i.
  - simpl; f_equal; lia.
  - apply lacks_cons in Hp; destruct Hp as [Hd Hp].
    change ((d :: p) ++ s) with (d :: (p ++ s)).
    cbn [indexOf_from]; rewrite startsWith_single, Hd.
    rewrite (IH Hp); f_equal; cbn [List.length]; lia.
Qed.

Lemma indexOf_from_head (c : code_unit) (s : jsstring) (i : Z) :
  indexOf_from (c :: s) [c] i = i.
Proof.
  cbn [indexOf_from]; rewrite startsWith_single, N.eqb_refl; reflexivity.
Qed.

Lemma indexOf_from_lacks (c : code_unit) (s : jsstring) :
  lacks c s -> forall i, indexOf_from s [c] i = -1.
Proof.
  induction s as [|d s IH]; intros Hs i.
  - reflexivity.
  - apply lacks_cons in Hs; destruct Hs as [Hd Hs].
    cbn [indexOf_from]; rewrite startsWith_single, Hd; apply IH; exact Hs.
Qed.

(** The first occurrence of [c] after a prefix that lacks it. *)
Lemma indexOf_prefix (c : code_unit) (p s : jsstring) :
  lacks c p -> indexOf (p ++ c :: s) [c] = Z.of_nat (List.length p).
Proof.
  intros Hp; unfold indexOf.
  rewrite (indexOf_from_skip c p (c :: s) Hp).
  apply indexOf_from_head.
Qed.

Lemma indexOf_lacks (c : code_unit) (s : jsstring) :
  lacks c s -> indexOf s [c] = -1.
Proof.
  intros Hs; apply indexOf_from_lacks; exact Hs.
Qed.

Lemma substring2_prefix (s t : jsstring) :
  substring2 (s ++ t) 0 (Z.of_nat (List.length s)) = s.
Proof.
  unfold substring2, clamp, JsString.length.
  rewrite length_app, Nat2Z.inj_add.
  replace (Z.min (Z.max 0 0) _) with 0 by lia.
  replace (Z.min (Z.max (Z.of_nat (List.length s)) 0) _)
    with (Z.of_nat (List.length s)) by lia.
  replace (Z.min 0 _) with 0 by lia.
  replace (Z.max 0 _ - 0) with (Z.of_nat (List.length s)) by lia.
  rewrite Nat2Z.id; simpl skipn.
  rewrite firstn_app, Nat.sub_diag, firstn_all; simpl; apply app_nil_r.
Qed.

Lemma substring_suffix (p s : jsstring) :
  substring (p ++ s) (Z.of_nat (List.length p)) = s.
Proof.
  unfold substring, substring2, clamp, JsString.length.
  rewrite length_app, Nat2Z.inj_add.
  set (a := Z.of_nat (List.length p)); set (b := Z.of_nat (List.length s)).
  assert (0 <= a) by (subst a; lia). assert (0 <= b) by (subst b; lia).
  replace (Z.min (Z.max a 0) (a + b)) with a by lia.
  replace (Z.min (Z.max (a + b) 0) (a + b)) with (a + b) by lia.
  replace (Z.min a (a + b)) with a by lia.
  replace (Z.max a (a + b) - a) with b by lia.
  subst a b; rewrite !Nat2Z.id.
  rewrite skipn_app, skipn_all, Nat.sub_diag; simpl.
  apply firstn_all.
Qed.

(** A negative start is clamped to 0: the whole string. *)
Lemma substring_negative (s : jsstring) (n : Z) :
  n <= 0 -> substring s n = s.
Proof.
  intros Hn; unfold substring, substring2, clamp, JsString.length.
  set (a := Z.of_nat (List.length s)).
  assert (0 <= a) by (subst a; lia).
  replace (Z.min (Z.max n 0) a) with 0 by lia.
  replace (Z.min (Z.max a 0) a) with a by lia.
  replace (Z.min 0 a) with 0 by lia.
  replace (Z.max 0 a - 0) with a by lia.
  subst a; rewrite Nat2Z.id; simpl; apply firstn_all.
Qed.

Lemma slice_suffix (p s : jsstring) :
  slice (p ++ s) (Z.of_nat (List.length p)) = s.
Proof.
  unfold slice, JsString.length.
  rewrite length_app, Nat2Z.inj_add.
  destruct (Z.ltb_spec (Z.of_nat (List.length p)) 0); [lia|].
  replace (Z.min _ _) with (Z.of_nat (List.length p)) by lia.
  rewrite Nat2Z.id, skipn_app, skipn_all, Nat.sub_diag; reflexivity.
Qed.

Lemma trimStart_app (a b : jsstring) (c : code_unit) :
  isWhiteSpace c = false -> trimStart (a ++ c :: b) = trimStart a ++ c :: b.
Proof.
  intros Hc; induction a as [|d a IH]; simpl.
  - rewrite Hc; reflexivity.
  - destruct (isWhiteSpace d); [exact IH | reflexivity].
Qed.

Lemma trimStart_incl (s : jsstring) (x : code_unit) :
  In x (trimStart s) -> In x s.
Proof.
  induction s as [|d s IH]; simpl; [tauto|].
  destruct (isWhiteSpace d); simpl; tauto.
Qed.

Lemma trimEnd_lacks (c : code_unit) (s : jsstring) :
  lacks c s -> lacks c (trimEnd s).
Proof.
  rewrite !lacks_In; unfold trimEnd; intros H I; apply H.
  apply in_rev, trimStart_incl in I; apply in_rev; exact I.
Qed.

Lemma trimEnd_app (a suffix : jsstring) (last : code_unit) :
  isWhiteSpace last = false ->
  trimEnd ((a ++ [last]) ++ suffix) = (a ++ [last]) ++ trimEnd suffix.
Proof.
  intros Hl; unfold trimEnd.
  rewrite (rev_app_distr (a ++ [last]) suffix), (rev_app_distr a [last]).
  change (rev [last] ++ rev a) with (last :: rev a).
  rewrite (trimStart_app (rev suffix) (rev a) last Hl).
  rewrite rev_app_distr.
  change (last :: rev a) with ([last] ++ rev a).
  rewrite rev_app_distr, rev_involutive; reflexivity.
Qed.

(** Trimming a text that starts and ends with characters that are not
    white space only shortens what follows it. *)
Lemma trim_bracketed (first last : code_unit) (mid suffix : jsstring) :
  isWhiteSpace first = false -> isWhiteSpace last = false ->
  trim ((first :: mid ++ [last]) ++ suffix)
  = (first :: mid ++ [last]) ++ trimEnd suffix.
Proof.
  intros Hf Hl; unfold trim.
  change ((first :: mid ++ [last]) ++ suffix)
    with (first :: ((mid ++ [last]) ++ suffix)).
  cbn [trimStart]; rewrite Hf.
  apply (trimEnd_app (first :: mid) suffix last Hl).
Qed.

Lemma lastIndexOf_from_lacks (c : code_unit) (s : jsstring) :
  lacks c s -> forall i last, lastIndexOf_from s [c] i last = last.
Proof.
  induction s as [|d s IH]; intros Hs i last.
  - reflexivity.
  - apply lacks_cons in Hs; destruct Hs as [Hd Hs].
    cbn [lastIndexOf_from]; rewrite startsWith_single, Hd; apply IH; exact Hs.
Qed.

Lemma lastIndexOf_from_last (c : code_unit) (a t : jsstring) :
  lacks c t ->
  forall i last, lastIndexOf_from (a ++ c :: t) [c] i last = i + Z.of_nat (List.length a).
Proof.
  intros Ht; induction a as [|d a IH]; intros i last.
  - simpl app; cbn [lastIndexOf_from].
    rewrite startsWith_single, N.eqb_refl.
    rewrite (lastIndexOf_from_lacks c t Ht); simpl; lia.
  - change ((d :: a) ++ c :: t) with (d :: (a ++ c :: t)).
    cbn [lastIndexOf_from]; rewrite IH; cbn [List.length]; lia.
Qed.

(** The last occurrence of [c] when nothing after it holds [c]. *)
Lemma lastIndexOf_last (c : code_unit) (a t : jsstring) :
  lacks c t -> lastIndexOf (a ++ c :: t) [c] = Z.of_nat (List.length a).
Proof.
  intros Ht; unfold lastIndexOf.
  rewrite (lastIndexOf_from_last c a t Ht); lia.
Qed.

End JsStringFacts.

(** ** [/extract-text]: the two extraction steps *)

Section ExtractionSteps.

Variable JSON_parse : jsstring -> option JSON.
Variable Number_toString : float -> jsstring.

Local Abbreviation parse := (ExtractText.parse JSON_parse).
Local Abbreviation visionData := (ExtractText.visionData JSON_parse).
Local Abbreviation translatedText := (ExtractText.translatedText JSON_parse).

Lemma jsonString_prefix (prefix rest : jsstring) :
  lacks 123%N prefix ->
  ExtractText.jsonString (prefix ++ 123%N :: rest) = 123%N :: rest.
Proof.
  intros Hp; unfold ExtractText.jsonString, ExtractText.jsonStartIndex.
  change (js "{") with [123%N].
  rewrite (JsStringFacts.indexOf_prefix 123%N prefix rest Hp).
  apply JsStringFacts.substring_suffix.
Qed.

Lemma startsWith_brace (c : code_unit) (s : jsstring) :
  startsWith s [c] = true -> exists rest, s = c :: rest.
Proof.
  rewrite JsStringFacts.startsWith_single.
  destruct s as [|d s]; [discriminate|].
  intros E; apply N.eqb_eq in E; subst d; exists s; reflexivity.
Qed.

(** C1.  When the OCR reply is a prefix without any opening brace followed
    by a JSON object (a text that starts with its opening brace), the
    substring taken from the first brace is that object, and parsing it
    gives what parsing the object alone gives. *)
Theorem ocr_extraction_ignores_prefix (prefix object : jsstring) :
  lacks 123%N prefix ->
  startsWith object (js "{") = true ->
  ExtractText.jsonString (prefix ++ object) = object /\
  visionData (prefix ++ object) = parse object.
Proof.
  intros Hp Ho.
  destruct (startsWith_brace 123%N object Ho) as [rest ->].
  unfold visionData, ExtractText.visionData.
  rewrite (jsonString_prefix prefix rest Hp); split; reflexivity.
Qed.

(** The same with JSON white space between the prefix and the brace, for
    a parser that skips leading white space as [JSON.parse] does. *)
Lemma ocr_prefix_then_space (prefix space object : jsstring) :
  (forall w s, forallb JsonText.isJsonSpace w = true ->
               JSON_parse (w ++ s) = JSON_parse s) ->
  lacks 123%N prefix ->
  forallb JsonText.isJsonSpace space = true ->
  startsWith object (js "{") = true ->
  visionData (prefix ++ space ++ object) = parse (space ++ object).
Proof.
  intros Hws Hp Hs Ho.
  assert (Hl : lacks 123%N (prefix ++ space)).
  { apply JsStringFacts.lacks_app; split; [exact Hp|].
    unfold lacks; apply forallb_forall; intros d Hd.
    rewrite forallb_forall in Hs; specialize (Hs d Hd).
    destruct (N.eqb_spec d 123%N) as [->|]; [discriminate | reflexivity]. }
  destruct (startsWith_brace 123%N object Ho) as [rest ->].
  rewrite app_assoc.
  unfold ExtractText.visionData, ExtractText.parse.
  rewrite (jsonString_prefix (prefix ++ space) rest Hl).
  rewrite (Hws space (123%N :: rest) Hs); reflexivity.
Qed.

Lemma cleanJsonString_bounded (prefix mid suffix : jsstring) :
  lacks 91%N prefix -> lacks 93%N suffix ->
  ExtractText.cleanJsonString (prefix ++ (91%N :: mid ++ [93%N]) ++ suffix)
  = Normal (91%N :: mid ++ [93%N]).
Proof.
  intros Hp Hs; unfold ExtractText.cleanJsonString.
  change (js "[") with [91%N]; change (js "]") with [93%N].
  change ((91%N :: mid ++ [93%N]) ++ suffix)
    with (91%N :: ((mid ++ [93%N]) ++ suffix)).
  rewrite (JsStringFacts.indexOf_prefix 91%N prefix _ Hp).
  destruct (Z.eqb_spec (Z.of_nat (List.length prefix)) (-1)) as [E|_]; [lia|].
  rewrite JsStringFacts.slice_suffix.
  change (91%N :: ((mid ++ [93%N]) ++ suffix))
    with ((91%N :: mid ++ [93%N]) ++ suffix).
  rewrite (JsStringFacts.trim_bracketed 91%N 93%N mid suffix eq_refl eq_refl).
  pose proof (JsStringFacts.trimEnd_lacks 93%N suffix Hs) as Ht.
  assert (E : (91%N :: mid ++ [93%N]) ++ trimEnd suffix
              = (91%N :: mid) ++ 93%N :: trimEnd suffix)
    by (simpl; rewrite <- app_assoc; reflexivity).
  rewrite E.
  rewrite (JsStringFacts.lastIndexOf_last 93%N (91%N :: mid) (trimEnd suffix) Ht).
  rewrite <- E.
  replace (Z.of_nat (List.length (91%N :: mid)) + 1)
    with (Z.of_nat (List.length (91%N :: mid ++ [93%N])))
    by (cbn [List.length]; rewrite length_app; cbn [List.length]; lia).
  rewrite JsStringFacts.substring2_prefix; reflexivity.
Qed.

(** C2.  When the translation reply is a JSON array (a text from its
    opening to its closing bracket) after a wrapper without any opening
    bracket and before a wrapper without any closing bracket, the bounded
    substring is that array, and the text of the first translation is the
    one obtained from the array alone. *)
Theorem translation_extraction_ignores_wrapper (prefix mid suffix : jsstring) :
  lacks 91%N prefix ->
  lacks 93%N suffix ->
  let array := 91%N :: mid ++ [93%N] in
  ExtractText.cleanJsonString (prefix ++ array ++ suffix) = Normal array /\
  translatedText (prefix ++ array ++ suffix) = translatedText array /\
  translatedText array = bind (parse array) ExtractText.translatedTextOf.
Proof.
  intros Hp Hs array.
  pose proof (cleanJsonString_bounded prefix mid suffix Hp Hs) as Hw.
  pose proof (cleanJsonString_bounded [] mid [] eq_refl eq_refl) as Hc.
  simpl app at 1 in Hc; rewrite app_nil_r in Hc.
  fold array in Hw, Hc.
  unfold translatedText, ExtractText.translatedText.
  rewrite Hw, Hc; repeat split; reflexivity.
Qed.

End ExtractionSteps.

(** ** [/extract-text]: the handler *)

Section ExtractTextHandler.

Variable JSON_parse : jsstring -> option JSON.
Variable Number_toString : float -> jsstring.

Import ExtractText.

Local Abbreviation ocr := (ExtractText.ocr JSON_parse Number_toString).
Local Abbreviation translate := (ExtractText.translate JSON_parse Number_toString).
Local Abbreviation extract_text := (ExtractText.extract_text JSON_parse Number_toString).
Local Abbreviation Failure := (ExtractText.Failure JSON_parse Number_toString).
Local Abbreviation toString := (toString Number_toString).

Lemma ocr_unfold (w : World) (p : jsstring) :
  ocr w p =
  (imageBuffer <- readFileSync w p ;;
   data <- visionPost w imageBuffer ;;
   vision <- (raw <- toString data ;; visionData JSON_parse raw) ;;
   if invalidVision vision then Normal (inl (failed msgInvalidVision))
   else
     text <- (regions <- asArray (prop vision (js "regions")) ;;
              forEachRegion Number_toString regions []) ;;
     if negb (truthy (JString (trim text)))
     then Throw (Error (js "No text extracted from the image."))
     else Normal (inr (trim text))).
Proof.
  unfold ExtractText.ocr.
  destruct (readFileSync w p) as [buf|]; cbn [bind]; [|reflexivity].
  destruct (visionPost w buf) as [data|]; cbn [bind]; [|reflexivity].
  destruct (toString data) as [raw|]; cbn [bind]; [|reflexivity].
  destruct (visionData JSON_parse raw) as [vision|]; cbn [bind]; [|reflexivity].
  destruct (invalidVision vision); [reflexivity|].
  destruct (asArray (prop vision (js "regions"))); reflexivity.
Qed.

Lemma translate_unfold (w : World) (p text : jsstring) :
  translate w p text =
  (tdata <- translatorPost w text ;;
   translated <- (raw <- toString tdata ;; translatedText JSON_parse raw) ;;
   unlinkSync w p ;;;
   Normal (complete text translated)).
Proof.
  unfold ExtractText.translate.
  destruct (translatorPost w text) as [tdata|]; cbn [bind]; [|reflexivity].
  destruct (toString tdata) as [raw|]; reflexivity.
Qed.

Lemma failure_message (w : World) (f : File) (m : jsstring) :
  Failure w f m -> m = msgGeneric \/ m = msgInvalidVision.
Proof.
  destruct 1; auto.
Qed.

Lemma failure_response (w : World) (f : File) (m : jsstring) :
  Failure w f m -> extract_text w (Some f) = failed m.
Proof.
  intros F; unfold ExtractText.extract_text, ExtractText.pipeline.
  destruct F as [e H1 | b e H1 H2 | b d e H1 H2 H3 | b d v H1 H2 H3 H4
                | b d v e H1 H2 H3 H4 H5 | b d v t H1 H2 H3 H4 H5 H6
                | t e H1 H2 | t d e H1 H2 H3 | t d tr e H1 H2 H3 H4].
  - rewrite ocr_unfold, H1; reflexivity.
  - rewrite ocr_unfold, H1; cbn [bind]; rewrite H2; reflexivity.
  - rewrite ocr_unfold, H1; cbn [bind]; rewrite H2; cbn [bind].
    rewrite H3; reflexivity.
  - rewrite ocr_unfold, H1; cbn [bind]; rewrite H2; cbn [bind].
    rewrite H3; cbn [bind]; rewrite H4; reflexivity.
  - rewrite ocr_unfold, H1; cbn [bind]; rewrite H2; cbn [bind].
    rewrite H3; cbn [bind]; rewrite H4, H5; reflexivity.
  - rewrite ocr_unfold, H1; cbn [bind]; rewrite H2; cbn [bind].
    rewrite H3; cbn [bind]; rewrite H4, H5; cbn [bind]; rewrite H6; reflexivity.
  - rewrite H1; cbn [bind]; rewrite translate_unfold, H2; reflexivity.
  - rewrite H1; cbn [bind]; rewrite translate_unfold, H2; cbn [bind].
    rewrite H3; reflexivity.
  - rewrite H1; cbn [bind]; rewrite translate_unfold, H2; cbn [bind].
    rewrite H3; cbn [bind]; rewrite H4; reflexivity.
Qed.

Lemma ocr_outcome (w : World) (f : File) :
  (exists m, Failure w f m) \/ exists text, ocr w (path f) = Normal (inr text).
Proof.
  rewrite ocr_unfold.
  destruct (readFileSync w (path f)) as [b|e] eqn:H1; cbn [bind];
    [|left; eexists; eapply UnreadableFile; eassumption].
  destruct (visionPost w b) as [d|e] eqn:H2; cbn [bind];
    [|left; eexists; eapply OcrProviderError; eassumption].
  destruct (raw <- toString d ;; visionData JSON_parse raw) as [v|e] eqn:H3;
    cbn [bind]; [|left; eexists; eapply OcrReplyUnreadable; eassumption].
  destruct (invalidVision v) eqn:H4;
    [left; eexists; eapply InvalidOcrShape; eassumption|].
  destruct (regions <- asArray (prop v (js "regions")) ;;
            forEachRegion Number_toString regions []) as [t|e] eqn:H5;
    cbn [bind]; [|left; eexists; eapply OcrTextMalformed; eassumption].
  destruct (trim t) as [|c s] eqn:H6; cbn [truthy negb];
    [left; eexists; eapply EmptyText; eassumption|].
  right; eexists; reflexivity.
Qed.

Lemma failure_or_complete (w : World) (f : File) :
  (exists m, Failure w f m) \/
  exists text translated, extract_text w (Some f) = complete text translated.
Proof.
  destruct (ocr_outcome w f) as [F|[t H1]]; [left; exact F|].
  destruct (translatorPost w t) as [d|e] eqn:H2;
    [|left; eexists; eapply TranslationProviderError; eassumption].
  destruct (raw <- toString d ;; translatedText JSON_parse raw) as [tr|e] eqn:H3;
    [|left; eexists; eapply InvalidTranslation; eassumption].
  destruct (unlinkSync w (path f)) as [u|e] eqn:H4;
    [|left; eexists; eapply CleanupError; eassumption].
  right; exists t, tr.
  unfold ExtractText.extract_text, ExtractText.pipeline.
  rewrite H1; cbn [bind]; rewrite translate_unfold, H2; cbn [bind].
  rewrite H3; cbn [bind]; rewrite H4; reflexivity.
Qed.

(** C8.  Once a file was uploaded, every failure of the pipeline
    (unreadable file, OCR provider error, unreadable or invalid OCR reply,
    no text, translation provider error, invalid translation reply, failed
    deletion) is answered with status 500 and a body that holds nothing
    but a fixed message: ["Invalid response from Vision API."] for an OCR
    reply of the wrong shape, ["An error occurred while processing the
    image."] for all others.  A request that does not fail in one of these
    ways gets the complete result, with both texts. *)
Theorem extract_text_failure_is_generic_500 (w : World) (f : File) :
  (forall m, Failure w f m ->
     extract_text w (Some f) = {| status := 500; body := error_body m |} /\
     (m = msgGeneric \/ m = msgInvalidVision)) /\
  ((exists m, Failure w f m) \/
   exists text translated,
     extract_text w (Some f)
     = {| status := 200;
          body := JObject [(js "extractedText", JString text);
                           (js "translatedText", translated)] |}).
Proof.
  split.
  - intros m F; split; [exact (failure_response w f m F) | exact (failure_message w f m F)].
  - exact (failure_or_complete w f).
Qed.

(** C10.  A translation reply without any opening bracket makes the
    handler throw its own error, ["No JSON found in the response."], which
    the caller sees as the generic 500.  An OCR reply without any opening
    brace raises no error of the handler's own: [indexOf] gives -1,
    [substring(-1)] is the whole reply, and the reply is parsed as it is,
    which fails exactly when [JSON.parse] refuses it. *)
Theorem missing_delimiter_asymmetry :
  (forall raw, lacks 91%N raw ->
     translatedText JSON_parse raw
     = Throw (Error (js "No JSON found in the response."))) /\
  (forall w f text tdata raw,
     ocr w (path f) = Normal (inr text) ->
     translatorPost w text = Normal tdata ->
     toString tdata = Normal raw ->
     lacks 91%N raw ->
     extract_text w (Some f) = {| status := 500; body := error_body msgGeneric |}) /\
  (forall raw, lacks 123%N raw ->
     jsonStartIndex raw = -1 /\
     jsonString raw = raw /\
     visionData JSON_parse raw = parse JSON_parse raw /\
     (JSON_parse raw = None -> visionData JSON_parse raw = Throw SyntaxError) /\
     (forall v, JSON_parse raw = Some v -> visionData JSON_parse raw = Normal v)).
Proof.
  assert (T : forall raw, lacks 91%N raw ->
            translatedText JSON_parse raw
            = Throw (Error (js "No JSON found in the response."))).
  { intros raw Hr; unfold ExtractText.translatedText, cleanJsonString.
    change (js "[") with [91%N].
    rewrite (JsStringFacts.indexOf_lacks 91%N raw Hr); reflexivity. }
  split; [exact T|split].
  - intros w f text tdata raw H1 H2 H3 Hr.
    apply (failure_response w f msgGeneric).
    eapply InvalidTranslation; [exact H1 | exact H2 |].
    rewrite H3; cbn [bind]; exact (T raw Hr).
  - intros raw Hr.
    assert (I : jsonStartIndex raw = -1).
    { unfold jsonStartIndex; change (js "{") with [123%N].
      exact (JsStringFacts.indexOf_lacks 123%N raw Hr). }
    assert (S : jsonString raw = raw).
    { unfold jsonString; rewrite I.
      apply JsStringFacts.substring_negative; lia. }
    unfold visionData; rewrite S; unfold parse.
    repeat split; try assumption.
    + intros ->; reflexivity.
    + intros v ->; reflexivity.
Qed.

End ExtractTextHandler.

(** ** Start-up *)

Module BootstrapFacts.

Import Bootstrap.

Lemma forEach_outcome (env : Env) (keys : list jsstring) :
  ((forall key, In key keys -> missing env key = false) /\ forEach env keys = [])
  \/ exists key, In key keys /\ missing env key = true /\ forEach env keys = report key.
Proof.
  induction keys as [|k keys IH]; simpl.
  - left; split; [intros key []|reflexivity].
  - destruct (missing env k) eqn:M.
    + right; exists k; repeat split; auto.
    + destruct IH as [[A E]|[key [I [Mk E]]]].
      * left; split; [|exact E].
        intros key [<-|I]; [exact M | exact (A key I)].
      * right; exists key; repeat split; auto.
Qed.

Lemma missing_iff (env : Env) (key : jsstring) :
  missing env key = true <-> env key = None \/ env key = Some [].
Proof.
  unfold missing; destruct (env key) as [[|c s]|]; split; intros H;
    try reflexivity; try discriminate; auto;
    destruct H as [H|H]; discriminate.
Qed.

Lemma report_exits (key : jsstring) :
  exited (report key) /\ ~ listened (report key).
Proof.
  split.
  - exists 1; split; [lia | simpl; auto].
  - intros [port [H|[H|[]]]]; discriminate.
Qed.

(** C9, as the code has it.  If one of the four required variables is
    absent or empty, the process writes the error line for the first such
    variable, exits with status 1 and never reaches [app.listen]; if all
    four hold a non-empty value, the check lets the script run on to
    [app.listen]. *)
Theorem startup_check (env : Env) :
  ((exists key, In key requiredEnvVars /\ (env key = None \/ env key = Some [])) ->
     (exists key, In key requiredEnvVars /\ (env key = None \/ env key = Some [])
                  /\ main env = report key) /\
     exited (main env) /\ ~ listened (main env)) /\
  ((forall key, In key requiredEnvVars -> exists c s, env key = Some (c :: s)) ->
     main env = [Listen (PORT env)]).
Proof.
  unfold main.
  destruct (forEach_outcome env requiredEnvVars) as [[A E]|[key [I [M E]]]]; split.
  - intros [key [I H]]; apply missing_iff in H.
    rewrite (A key I) in H; discriminate.
  - intros _; rewrite E; reflexivity.
  - intros _; rewrite E; split; [|exact (report_exits key)].
    exists key; split; [exact I|split; [apply missing_iff; exact M | reflexivity]].
  - intros H; destruct (H key I) as [c [s Hk]].
    unfold missing in M; rewrite Hk in M; discriminate.
Qed.

End BootstrapFacts.

(** ** Chat relay *)

Section ChatFacts.

Variable Number_toString : float -> jsstring.
Variable create : Chat.ChatRequest -> completion Chat.Message.
Variable engine_message : JsError -> jsstring.

Import Chat.

Local Abbreviation ask := (Chat.ask create engine_message).
Local Abbreviation askHandler := (Chat.askHandler create engine_message).
Local Abbreviation test_api := (Chat.test_api Number_toString create engine_message).

Lemma Get_prop (v : JSON) (k : jsstring) :
  v <> JNull -> Get v k = Normal (prop v k).
Proof.
  destruct v; intros H; try reflexivity; congruence.
Qed.

Lemma invalidPrompt_false (prompt : option JSON) :
  invalidPrompt prompt = false <->
  exists s, prompt = Some (JString s) /\ trim s <> [].
Proof.
  unfold invalidPrompt, JsString.length; split.
  - destruct prompt as [[]|]; try discriminate.
    intros H; exists s; split; [reflexivity|].
    intros E; rewrite E in H; discriminate.
  - intros [s [-> H]].
    destruct (trim s); [congruence | reflexivity].
Qed.


(** C7, as the code has it.  When the provider replies, [/ask] (the same
    in both variants) and [/test-api] of server.js put the provider's
    content into the envelope as it is; [/test-api] of the other variant
    puts there the string [message.content.join(" ")]. *)
Theorem chat_content_envelope :
  (forall body prompt message,
     validateRequest body = Normal None ->
     Get body (js "prompt") = Normal prompt ->
     create (ask_request prompt) = Normal message ->
     fst (ask body)
     = {| status := 200;
          body := JObject [(js "response", message_content message)] |}) /\
  (forall startTime endTime message,
     create (test_api_request ServerJs) = Normal message ->
     fst (test_api ServerJs startTime endTime)
     = {| status := 200;
          body := JObject [(js "status", JString (js "success"));
                           (js "responseTime", JNumber (Number_of_Z (endTime - startTime)));
                           (js "content", message_content message)] |}) /\
  (forall startTime endTime message items joined,
     create (test_api_request OcrVariant) = Normal message ->
     message_content message = JArray items ->
     join Number_toString (List.map Some items) (js " ") = Normal joined ->
     fst (test_api OcrVariant startTime endTime)
     = {| status := 200;
          body := JObject [(js "status", JString (js "success"));
                           (js "responseTime", JNumber (Number_of_Z (endTime - startTime)));
                           (js "content", JString joined)] |}).
Proof.
  repeat split.
  - intros body prompt message V G C.
    unfold Chat.ask; rewrite V.
    unfold Chat.askHandler; rewrite G, C; reflexivity.
  - intros t0 t1 message C.
    unfold Chat.test_api; rewrite C; reflexivity.
  - intros t0 t1 message items joined C I J.
    unfold Chat.test_api; rewrite C; cbn [bind test_api_content].
    unfold content_join; rewrite I, J; reflexivity.
Qed.

End ChatFacts.

(** ** Blob storage *)

Module RegexFacts.

Import Storage.

Lemma canonicalize_lower (c p : code_unit) :
  lowercase p ->
  (N.eqb (canonicalize c) (canonicalize p) = true <-> lower c = p).
Proof.
  unfold lowercase, canonicalize, lower; intros Hp.
  rewrite N.eqb_eq.
  destruct (N.leb_spec 97 c), (N.leb_spec c 122), (N.leb_spec 97 p),
    (N.leb_spec p 122), (N.leb_spec 65 c), (N.leb_spec c 90);
    cbn [andb]; lia.
Qed.

Lemma matches_ci_lower (pat : jsstring) :
  Forall lowercase pat ->
  forall ext, matches_ci ext pat = true <-> List.map lower ext = pat.
Proof.
  induction 1 as [|p pat Hp _ IH]; intros [|c ext]; simpl;
    try (split; [discriminate | discriminate]); try tauto.
  rewrite andb_true_iff, (canonicalize_lower c p Hp), (IH ext).
  split; [intros [-> ->]; reflexivity | intros E; injection E; auto].
Qed.

Lemma imageExtensions_lowercase :
  Forall (Forall lowercase) imageExtensions.
Proof.
  unfold imageExtensions, js; simpl.
  repeat (apply Forall_cons || apply Forall_nil); unfold lowercase; lia.
Qed.

Lemma image_at_spec (s : jsstring) :
  image_at s = true <->
  exists ext, s = 46%N :: ext /\ In (List.map lower ext) imageExtensions.
Proof.
  assert (E : forall ext,
             existsb (matches_ci ext) imageExtensions = true
             <-> In (List.map lower ext) imageExtensions).
  { intros ext; rewrite existsb_exists; split.
    - intros [pat [I M]].
      pose proof imageExtensions_lowercase as L.
      rewrite Forall_forall in L.
      apply (matches_ci_lower pat (L pat I)) in M; rewrite M; exact I.
    - intros I; exists (List.map lower ext); split; [exact I|].
      pose proof imageExtensions_lowercase as L.
      rewrite Forall_forall in L.
      apply (matches_ci_lower _ (L _ I)); reflexivity. }
  split.
  - destruct s as [|c ext]; [discriminate|]; simpl.
    destruct (N.eqb_spec c 46) as [->|N].
    + intros H; exists ext; split; [reflexivity | apply E; exact H].
    + destruct c as [|q]; [discriminate|].
      do 6 (destruct q as [q|q|]; try discriminate); congruence.
  - intros [ext [-> I]]; simpl; apply E; exact I.
Qed.

(** The pattern finds a match exactly in the names that end with a dot
    and one of the five extensions, letter case aside. *)
Lemma image_regex_spec (name : jsstring) :
  image_regex name = true <-> has_image_extension name.
Proof.
  unfold has_image_extension; induction name as [|c name IH].
  - simpl; split; [discriminate|].
    intros [stem [ext [E _]]]; destruct stem; discriminate.
  - cbn [image_regex]; rewrite orb_true_iff, IH, image_at_spec; split.
    + intros [[ext [E I]]|[stem [ext [E I]]]].
      * exists [], ext; split; assumption.
      * exists (c :: stem), ext; split; [rewrite E; reflexivity | exact I].
    + intros [stem [ext [E I]]]; destruct stem as [|d stem].
      * left; exists ext; split; assumption.
      * right; exists stem, ext; split; [injection E; auto | exact I].
Qed.

End RegexFacts.

Section StorageFacts.

Variable sign : Storage.SasRequest -> completion jsstring.
Variable error_message : JsError -> jsstring.
Variable clock : nat -> Z.

Import Storage.

Local Abbreviation loop := (Storage.loop sign clock).
Local Abbreviation get_images := (Storage.get_images sign error_message clock).
Local Abbreviation generate_sas_url := (Storage.generate_sas_url sign error_message).

(** Blobs that are not images leave the URLs and the requests as they are. *)
Lemma loop_no_image (blobs : list jsstring) (stop : option JsError) :
  filter image_regex blobs = [] ->
  forall st,
    loop blobs stop st
    = ({| imageUrls := imageUrls st;
          blobCount := blobCount st + Z.of_nat (List.length blobs);
          requests := requests st |}, stop).
Proof.
  induction blobs as [|name rest IH]; intros F st.
  - destruct st; simpl; rewrite Z.add_0_r; reflexivity.
  - simpl in F; cbn [Storage.loop].
    destruct (image_regex name); [discriminate|].
    rewrite (IH F); cbn [imageUrls blobCount requests List.length].
    rewrite Nat2Z.inj_succ, <- Z.add_1_l, Z.add_assoc; reflexivity.
Qed.

(** C4.  When the listing completes and none of its names matches the
    pattern, however many names it has, [/get-images] answers 404 with an
    error body, and asks for no signed URL. *)
Theorem get_images_without_image_is_404 (listing : Listing) :
  failure listing = None ->
  filter image_regex (names listing) = [] ->
  get_images listing
  = ({| status := 404; body := error_body (js "No images found") |}, []).
Proof.
  intros Hf Hn; unfold Storage.get_images.
  rewrite (loop_no_image (names listing) (failure listing) Hn), Hf; reflexivity.
Qed.

(** With a signer that always succeeds, the loop adds one URL and one
    request per matching name, in order. *)
Lemma loop_signed (url : SasRequest -> jsstring) (stop : option JsError) :
  (forall r, sign r = Normal (url r)) ->
  forall blobs st,
    let added :=
      expected_requests clock (List.length (requests st)) (filter image_regex blobs) in
    loop blobs stop st
    = ({| imageUrls := imageUrls st ++ List.map url added;
          blobCount := blobCount st + Z.of_nat (List.length blobs);
          requests := requests st ++ added |}, stop).
Proof.
  intros Hs; induction blobs as [|name rest IH]; intros st; cbn zeta.
  - destruct st; simpl; rewrite !app_nil_r, Z.add_0_r; reflexivity.
  - cbn [Storage.loop filter].
    destruct (image_regex name).
    + unfold sasOptions; rewrite Hs, IH.
      cbn [imageUrls blobCount requests expected_requests List.map List.length].
      rewrite length_app, Nat.add_comm; cbn [List.length Nat.add].
      rewrite <- !app_assoc; cbn [app].
      rewrite Nat2Z.inj_succ, <- Z.add_1_l, Z.add_assoc; reflexivity.
    + rewrite IH; cbn [imageUrls blobCount requests List.length].
      rewrite Nat2Z.inj_succ, <- Z.add_1_l, Z.add_assoc; reflexivity.
Qed.

Lemma expected_requests_blobs (k : nat) (matching : list jsstring) :
  List.map blob (expected_requests clock k matching) = matching.
Proof.
  revert k; induction matching as [|name rest IH]; intros k; simpl;
    [reflexivity | rewrite IH; reflexivity].
Qed.

(** C5.  When the listing completes, the signer succeeds and at least one
    name matches, [/get-images] answers with the array of signed URLs, one
    per matching name and in the order of the listing: as many URLs as
    matching names, none for the other names.  A name matches exactly when
    it ends with a dot and one of jpg, jpeg, png, gif, jfif in any letter
    case. *)
Theorem get_images_one_url_per_image (listing : Listing) (url : SasRequest -> jsstring) :
  failure listing = None ->
  (forall r, sign r = Normal (url r)) ->
  filter image_regex (names listing) <> [] ->
  let matching := filter image_regex (names listing) in
  let asked := expected_requests clock 0 matching in
  get_images listing
  = ({| status := 200; body := JArray (List.map JString (List.map url asked)) |}, asked) /\
  List.length (List.map url asked) = List.length matching /\
  List.map blob asked = matching /\
  (forall name, In name matching <-> In name (names listing) /\ has_image_extension name).
Proof.
  intros Hf Hs Hn matching asked.
  assert (B : List.map blob asked = matching) by apply expected_requests_blobs.
  assert (L : List.length (List.map url asked) = List.length matching).
  { rewrite length_map, <- B, length_map; reflexivity. }
  split; [|split; [exact L|split; [exact B|]]].
  - unfold Storage.get_images.
    rewrite (loop_signed url (failure listing) Hs (names listing) start), Hf.
    cbn [imageUrls requests start app List.length].
    fold matching; fold asked.
    destruct (Z.eqb_spec (Z.of_nat (List.length (List.map url asked))) 0) as [E|_];
      [|reflexivity].
    assert (Hl : List.length matching <> 0%nat)
      by (intros Z0; apply length_zero_iff_nil in Z0; exact (Hn Z0)).
    lia.
  - intros name; unfold matching; rewrite filter_In, RegexFacts.image_regex_spec.
    reflexivity.
Qed.

Lemma new_Date_inRange (now : Z) :
  inRange now -> new_Date (now + 3600 * 1000) = Some (now + 3600 * 1000).
Proof.
  unfold inRange, new_Date; intros H.
  destruct (Z.leb_spec (Z.abs (now + 3600 * 1000)) 8640000000000000); [reflexivity | lia].
Qed.

(** Every request of the loop carries the options of [/get-images], with
    the clock reading of its position. *)
Lemma loop_requests (blobs : list jsstring) (stop : option JsError) :
  forall st,
    (forall k r, nth_error (requests st) k = Some r ->
                 options r = sasOptions (js "r") (clock k)) ->
    forall k r, nth_error (requests (fst (loop blobs stop st))) k = Some r ->
                options r = sasOptions (js "r") (clock k).
Proof.
  induction blobs as [|name rest IH]; intros st Hst; cbn [Storage.loop].
  - exact Hst.
  - assert (Hadd : forall k r,
              nth_error (requests st ++
                [{| blob := name;
                    options := sasOptions (js "r") (clock (List.length (requests st))) |}]) k
              = Some r ->
              options r = sasOptions (js "r") (clock k)).
    { intros k r Hk.
      destruct (Nat.lt_ge_cases k (List.length (requests st))) as [Lt|Ge].
      - rewrite nth_error_app1 in Hk by exact Lt; exact (Hst k r Hk).
      - rewrite nth_error_app2 in Hk by exact Ge.
        destruct (k - List.length (requests st))%nat as [|j] eqn:D.
        + simpl in Hk; injection Hk as <-.
          replace k with (List.length (requests st)) by lia; reflexivity.
        + destruct j; discriminate. }
    destruct (image_regex name).
    + destruct (sign _).
      * apply IH; exact Hadd.
      * exact Hadd.
    + apply IH; exact Hst.
Qed.

(** C6.  [/generate-sas-url/:blobName] asks for one URL, with permission
    ["w"]; every URL that [/get-images] asks for has permission ["r"]; in
    both the expiry is the clock reading taken for that URL plus
    3600 * 1000 milliseconds. *)
Theorem sas_permission_and_expiry :
  (forall now blobName,
     inRange now ->
     snd (generate_sas_url now blobName)
     = [{| blob := blobName;
           options := {| permissions := js "w";
                         expiresOn := Some (now + 3600 * 1000) |} |}]) /\
  (forall listing k request,
     inRange (clock k) ->
     nth_error (snd (get_images listing)) k = Some request ->
     permissions (options request) = js "r" /\
     expiresOn (options request) = Some (clock k + 3600 * 1000)).
Proof.
  split.
  - intros now blobName Hr; unfold Storage.generate_sas_url, sasOptions.
    rewrite (new_Date_inRange now Hr).
    destruct (sign _); reflexivity.
  - intros listing k request Hr Hk.
    assert (O : options request = sasOptions (js "r") (clock k)).
    { apply (loop_requests (names listing) (failure listing) start);
        [intros j r Hj; destruct j; discriminate|].
      unfold Storage.get_images in Hk.
      destruct (loop (names listing) (failure listing) start) as [st [e|]];
        cbn [fst]; [exact Hk|].
      destruct (Z.of_nat (List.length (imageUrls st)) =? 0); exact Hk. }
    rewrite O; unfold sasOptions; cbn [permissions expiresOn].
    split; [reflexivity | exact (new_Date_inRange (clock k) Hr)].
Qed.

End StorageFacts.

(** ** The handlers run on concrete inputs *)

Module Runs.

Import Samples.

Local Abbreviation extract_text :=
  (ExtractText.extract_text JsonText.parse JsonText.number_toString).

Example extract_text_fine :
  extract_text worldFine (Some upload)
  = ExtractText.complete (js "Hola mundo") (JString (js "Hello world")).
Proof. vm_compute; reflexivity. Qed.

Example extract_text_without_file :
  extract_text worldFine None
  = {| status := 400; body := error_body (js "No image file uploaded.") |}.
Proof. reflexivity. Qed.

Example extract_text_without_regions :
  extract_text worldNoRegions (Some upload)
  = ExtractText.failed (js "Invalid response from Vision API.").
Proof. vm_compute; reflexivity. Qed.

Example get_images_mixed :
  fst (Storage.get_images signer errorMessage clockFrom listingMixed)
  = {| status := 200;
       body := JArray
         [JString (js "https://account.blob.core.windows.net/images/cat.JPG?sp=r");
          JString (js "https://account.blob.core.windows.net/images/dog.jpeg?sp=r")] |}.
Proof. vm_compute; reflexivity. Qed.

Example ask_hello :
  Chat.ask createReplies engineMessage bodyHello
  = ({| status := 200; body := JObject [(js "response", JArray [textBlock])] |},
     [Chat.ask_request (Some (JString (js "  Hello  ")))]).
Proof. vm_compute; reflexivity. Qed.

Example main_complete :
  Bootstrap.main envComplete = [Bootstrap.Listen (JString (js "value"))].
Proof. vm_compute; reflexivity. Qed.

(** A closing bracket in what follows the array moves the end of the
    bounded substring: it runs to the last closing bracket of the reply. *)
Example cleanJsonString_later_bracket :
  ExtractText.cleanJsonString (js "[1] ]") = Normal (js "[1] ]").
Proof. vm_compute; reflexivity. Qed.

Lemma parse_skips_space (w s : jsstring) :
  forallb JsonText.isJsonSpace w = true ->
  JsonText.parse (w ++ s) = JsonText.parse s.
Proof.
  intros H; unfold JsonText.parse.
  replace (JsonText.skip_ws (w ++ s)) with (JsonText.skip_ws s); [reflexivity|].
  induction w as [|c w IH]; [reflexivity|].
  simpl in H; apply andb_true_iff in H; destruct H as [Hc Hw].
  simpl; rewrite Hc; exact (IH Hw).
Qed.

(** The reference reader is a parser for which white space between the
    junk and the object does not matter either. *)
Example ocr_prefix_then_space_run :
  ExtractText.visionData JsonText.parse (ocrPrefix ++ js "  " ++ ocrObject)
  = ExtractText.parse JsonText.parse (js "  " ++ ocrObject).
Proof.
  apply (ocr_prefix_then_space JsonText.parse ocrPrefix (js "  ") ocrObject
           parse_skips_space); reflexivity.
Qed.

End Runs.

(** ** The theorems at concrete inputs *)

Module Witnesses.

Import Samples.

Lemma ocr_extraction_ignores_prefix_witness :
  ExtractText.jsonString (ocrPrefix ++ ocrObject) = ocrObject /\
  ExtractText.visionData JsonText.parse (ocrPrefix ++ ocrObject)
  = ExtractText.parse JsonText.parse ocrObject.
Proof.
  apply (ocr_extraction_ignores_prefix JsonText.parse ocrPrefix ocrObject);
    reflexivity.
Defined.

Lemma translation_extraction_ignores_wrapper_witness :
  ExtractText.translatedText JsonText.parse
    (wrapperBefore ++ translationArray ++ wrapperAfter)
  = ExtractText.translatedText JsonText.parse translationArray.
Proof.
  apply (translation_extraction_ignores_wrapper JsonText.parse wrapperBefore
           (jsq "{'translations':[{'text':'Hello world','to':'en'}]}")
           wrapperAfter); reflexivity.
Defined.

Lemma extract_text_failure_is_generic_500_witness :
  ExtractText.extract_text JsonText.parse JsonText.number_toString
    worldOcrRefuses (Some upload)
  = {| status := 500; body := error_body ExtractText.msgGeneric |}.
Proof.
  apply (proj1 (extract_text_failure_is_generic_500 JsonText.parse
                  JsonText.number_toString worldOcrRefuses upload)).
  eapply ExtractText.OcrProviderError; reflexivity.
Defined.

Lemma missing_delimiter_asymmetry_witness :
  ExtractText.translatedText JsonText.parse (js "Service Unavailable")
  = Throw (Error (js "No JSON found in the response.")) /\
  ExtractText.extract_text JsonText.parse JsonText.number_toString
    worldNoBracket (Some upload)
  = {| status := 500; body := error_body ExtractText.msgGeneric |} /\
  ExtractText.visionData JsonText.parse (js "[1, 2]")
  = Normal (JArray [JNumber 1; JNumber 2]).
Proof.
  destruct (missing_delimiter_asymmetry JsonText.parse JsonText.number_toString)
    as [T [H V]].
  split; [apply T; reflexivity|split].
  - apply (H worldNoBracket upload (js "Hola mundo")
             (JString (js "Service Unavailable")) (js "Service Unavailable"));
      vm_compute; reflexivity.
  - apply (V (js "[1, 2]")); reflexivity.
Defined.


Lemma chat_content_envelope_witness :
  fst (Chat.test_api JsonText.number_toString createReplies engineMessage
         OcrVariant 0 5)
  = {| status := 200;
       body := JObject [(js "status", JString (js "success"));
                        (js "responseTime", JNumber (Number_of_Z (5 - 0)));
                        (js "content", JString (js "[object Object]"))] |}.
Proof.
  apply (proj2 (proj2 (chat_content_envelope JsonText.number_toString
                         createReplies engineMessage))
           0 5 reply [textBlock]); reflexivity.
Defined.

Lemma get_images_without_image_is_404_witness :
  Storage.get_images signer errorMessage clockFrom listingNoImages
  = ({| status := 404; body := error_body (js "No images found") |}, []).
Proof.
  apply (get_images_without_image_is_404 signer errorMessage clockFrom
           listingNoImages); reflexivity.
Defined.

Lemma get_images_one_url_per_image_witness :
  let asked :=
    Storage.expected_requests clockFrom 0
      (filter Storage.image_regex (Storage.names listingMixed)) in
  Storage.get_images signer errorMessage clockFrom listingMixed
  = ({| status := 200; body := JArray (List.map JString (List.map urlOf asked)) |},
     asked).
Proof.
  apply (proj1 (get_images_one_url_per_image signer errorMessage clockFrom
                  listingMixed urlOf eq_refl (fun r => eq_refl)
                  ltac:(vm_compute; discriminate))).
Defined.

Lemma sas_permission_and_expiry_witness :
  snd (Storage.generate_sas_url signer errorMessage 1700000000000 (js "cat.jpg"))
  = [{| Storage.blob := js "cat.jpg";
        Storage.options :=
          {| Storage.permissions := js "w";
             Storage.expiresOn := Some (1700000000000 + 3600 * 1000) |} |}].
Proof.
  apply (proj1 (sas_permission_and_expiry signer errorMessage clockFrom)).
  unfold Storage.inRange; lia.
Defined.

Lemma startup_check_witness :
  Bootstrap.main envComplete = [Bootstrap.Listen (Bootstrap.PORT envComplete)] /\
  Bootstrap.exited (Bootstrap.main envNoStorageKey).
Proof.
  split.
  - apply (proj2 (BootstrapFacts.startup_check envComplete)).
    intros key _; eexists; eexists; reflexivity.
  - apply (proj1 (BootstrapFacts.startup_check envNoStorageKey)).
    exists (js "AZURE_STORAGE_ACCOUNT_KEY"); split;
      [vm_compute; tauto | left; reflexivity].
Defined.

End Witnesses.

(** ** Where claims of the specification and the code part *)

Module Counterexamples.

Import Samples.

(** All four variables are present, one of them empty: the process
    reports it and exits. *)
Lemma startup_check_counterexample :
  (forall key, In key Bootstrap.requiredEnvVars ->
               Bootstrap.present envEmptyContainer key) /\
  Bootstrap.main envEmptyContainer = Bootstrap.report (js "AZURE_CONTAINER_NAME") /\
  Bootstrap.exited (Bootstrap.main envEmptyContainer).
Proof.
  split; [|split].
  - intros key _; unfold Bootstrap.present, envEmptyContainer.
    destruct (JsString.eqb key (js "AZURE_CONTAINER_NAME")); discriminate.
  - vm_compute; reflexivity.
  - exists 1; split; [lia | vm_compute; tauto].
Qed.

(** The provider replies with one text block; [/test-api] of the variant
    with [/extract-text] does not put that content into the envelope. *)
Lemma chat_content_envelope_counterexample :
  createReplies (Chat.test_api_request OcrVariant) = Normal reply /\
  prop (body (fst (Chat.test_api JsonText.number_toString createReplies
                     engineMessage OcrVariant 0 5))) (js "content")
  = Some (JString (js "[object Object]")) /\
  prop (body (fst (Chat.test_api JsonText.number_toString createReplies
                     engineMessage OcrVariant 0 5))) (js "content")
  <> Some (Chat.message_content reply).
Proof.
  split; [reflexivity|split]; [vm_compute; reflexivity | vm_compute; discriminate].
Qed.


End Counterexamples.

(** * Further properties of the handlers *)

(** ** Joining strings and block objects *)

Module JoinFacts.

Lemma mapM_strings (Number_toString : float -> jsstring) (parts : list jsstring) :
  mapM (element_string Number_toString) (List.map (fun s => Some (JString s)) parts)
  = Normal parts.
Proof.
  induction parts as [|s parts IH]; [reflexivity|].
  cbn [List.map mapM element_string ToString bind]; rewrite IH; reflexivity.
Qed.

(** Strings are joined as they are. *)
Lemma join_strings_only (Number_toString : float -> jsstring)
  (parts : list jsstring) (sep : jsstring) :
  join Number_toString (List.map (fun s => Some (JString s)) parts) sep
  = Normal (join_strings parts sep).
Proof.
  unfold join; rewrite mapM_strings; reflexivity.
Qed.

Lemma mapM_blocks (Number_toString : float -> jsstring) (items : list JSON) :
  Forall (fun b => exists members,
            b = JObject members /\ hasOwn members (js "toString") = false) items ->
  mapM (element_string Number_toString) (List.map Some items)
  = Normal (List.map (fun _ => js "[object Object]") items).
Proof.
  induction 1 as [|b items [members [-> Hm]] _ IH]; [reflexivity|].
  cbn [List.map mapM element_string ToString bind].
  rewrite Hm; cbn [bind]; rewrite IH; reflexivity.
Qed.

End JoinFacts.

(** ** Chat relay: failures, and what reaches the provider *)

Section MoreChatFacts.

Variable Number_toString : float -> jsstring.
Variable create : Chat.ChatRequest -> completion Chat.Message.
Variable engine_message : JsError -> jsstring.

Import Chat.

Local Abbreviation ask := (Chat.ask create engine_message).
Local Abbreviation test_api := (Chat.test_api Number_toString create engine_message).
Local Abbreviation error_message := (Chat.error_message engine_message).

Lemma validateRequest_cases (body : JSON) :
  body <> JNull ->
  validateRequest body
  = if invalidPrompt (prop body (js "prompt"))
    then Normal (Some {| status := 400;
                         body := error_body (js "Invalid prompt format") |})
    else Normal None.
Proof.
  intros Hb; unfold validateRequest; rewrite (Get_prop body _ Hb); reflexivity.
Qed.

(** X1.  When the prompt is valid and the provider call throws, [/ask]
    answers 500 with the fixed text as [error] and the message of the
    thrown error as [details], after exactly one call. *)
Theorem ask_provider_failure (body : JSON) (s : jsstring) (e : JsError) :
  body <> JNull ->
  prop body (js "prompt") = Some (JString s) ->
  trim s <> [] ->
  create (ask_request (Some (JString s))) = Throw e ->
  ask body
  = ({| status := 500;
        body := JObject
          [(js "error", JString (js "Failed to fetch response from Claude"));
           (js "details", JString (error_message e))] |},
     [ask_request (Some (JString s))]).
Proof.
  intros Hb Hp Ht Hc; unfold Chat.ask.
  rewrite (validateRequest_cases body Hb), Hp.
  replace (invalidPrompt (Some (JString s))) with false
    by (symmetry; apply invalidPrompt_false; exists s; auto).
  unfold Chat.askHandler; rewrite (Get_prop body _ Hb), Hp, Hc; reflexivity.
Qed.

(** X2.  The provider is called exactly when the prompt passes the
    validation, and then once, with the fixed model and budget and the
    prompt as it was sent (not trimmed); the answer is 400 exactly when
    the provider is not called. *)
Theorem ask_calls_provider_iff_valid (body : JSON) :
  body <> JNull ->
  snd (ask body)
  = (if invalidPrompt (prop body (js "prompt")) then []
     else [{| model := js "claude-3-5-sonnet-20241022";
              max_tokens := 1024;
              content := prop body (js "prompt") |}]) /\
  (status (fst (ask body)) = 400 <-> snd (ask body) = []).
Proof.
  intros Hb; unfold Chat.ask.
  rewrite (validateRequest_cases body Hb).
  destruct (invalidPrompt (prop body (js "prompt"))).
  - cbn [fst snd status]; split; [reflexivity | tauto].
  - unfold Chat.askHandler; rewrite (Get_prop body _ Hb).
    destruct (create (ask_request (prop body (js "prompt"))));
      cbn [fst snd status finish]; (split; [reflexivity|]);
      split; intros H; discriminate.
Qed.

(** X3.  When the provider's content is not an array, [/test-api] of
    server.js passes it on with status 200, while the variant with
    [/extract-text] fails on [join] and answers 500 with the engine's
    message for the type error. *)
Theorem test_api_content_not_array (startTime endTime : Z) (message : Message) :
  isArray (message_content message) = false ->
  (create (test_api_request ServerJs) = Normal message ->
   fst (test_api ServerJs startTime endTime)
   = {| status := 200;
        body := JObject [(js "status", JString (js "success"));
                         (js "responseTime", JNumber (Number_of_Z (endTime - startTime)));
                         (js "content", message_content message)] |}) /\
  (create (test_api_request OcrVariant) = Normal message ->
   fst (test_api OcrVariant startTime endTime)
   = {| status := 500;
        body := JObject [(js "status", JString (js "error"));
                         (js "error", JString (engine_message TypeError))] |}).
Proof.
  intros Ha; split; intros Hc; unfold Chat.test_api; rewrite Hc.
  - reflexivity.
  - cbn [bind test_api_content]; unfold content_join.
    destruct (message_content message); try discriminate; reflexivity.
Qed.

(** X4.  When the provider's content is an array of block objects (none
    with a member [toString]), [/test-api] of the variant with
    [/extract-text] answers 200 with, as [content], the text
    ["[object Object]"] once per block, separated by single spaces: the
    text of the blocks does not reach the caller. *)
Theorem test_api_joins_blocks (startTime endTime : Z) (message : Message)
  (items : list JSON) :
  create (test_api_request OcrVariant) = Normal message ->
  message_content message = JArray items ->
  Forall (fun b => exists members,
            b = JObject members /\ hasOwn members (js "toString") = false) items ->
  fst (test_api OcrVariant startTime endTime)
  = {| status := 200;
       body := JObject
         [(js "status", JString (js "success"));
          (js "responseTime", JNumber (Number_of_Z (endTime - startTime)));
          (js "content",
           JString (join_strings (List.map (fun _ => js "[object Object]") items)
                      (js " ")))] |}.
Proof.
  intros Hc Hi Hb; unfold Chat.test_api; rewrite Hc.
  cbn [bind test_api_content]; unfold content_join; rewrite Hi.
  unfold join; rewrite (JoinFacts.mapM_blocks Number_toString items Hb); reflexivity.
Qed.

End MoreChatFacts.

(** ** Blob listing: failures, and what is asked of the signer *)

Section MoreStorageFacts.

Variable sign : Storage.SasRequest -> completion jsstring.
Variable error_message : JsError -> jsstring.
Variable clock : nat -> Z.

Import Storage.

Local Abbreviation loop := (Storage.loop sign clock).
Local Abbreviation get_images := (Storage.get_images sign error_message clock).

Lemma expected_requests_app (k : nat) (l1 l2 : list jsstring) :
  expected_requests clock k (l1 ++ l2)
  = expected_requests clock k l1
    ++ expected_requests clock (k + List.length l1) l2.
Proof.
  revert k; induction l1 as [|n l1 IH]; intros k; simpl.
  - rewrite Nat.add_0_r; reflexivity.
  - rewrite IH, Nat.add_succ_r; reflexivity.
Qed.

Lemma expected_requests_length (k : nat) (l : list jsstring) :
  List.length (expected_requests clock k l) = List.length l.
Proof.
  revert k; induction l as [|n l IH]; intros k; simpl; [|rewrite IH]; reflexivity.
Qed.

(** How the loop ends: either every matching name was signed, or it
    stopped at the first name whose signature failed. *)
Lemma loop_cases (blobs : list jsstring) (stop : option JsError) :
  forall st,
    let k := List.length (requests st) in
    (exists urls,
        Forall2 (fun r u => sign r = Normal u)
          (expected_requests clock k (filter image_regex blobs)) urls /\
        imageUrls (fst (loop blobs stop st)) = imageUrls st ++ urls /\
        requests (fst (loop blobs stop st))
        = requests st ++ expected_requests clock k (filter image_regex blobs) /\
        snd (loop blobs stop st) = stop)
    \/
    (exists before name after urls e,
        blobs = before ++ name :: after /\
        image_regex name = true /\
        Forall2 (fun r u => sign r = Normal u)
          (expected_requests clock k (filter image_regex before)) urls /\
        sign {| blob := name;
                options := sasOptions (js "r")
                             (clock (k + List.length (filter image_regex before))) |}
        = Throw e /\
        imageUrls (fst (loop blobs stop st)) = imageUrls st ++ urls /\
        requests (fst (loop blobs stop st))
        = requests st
          ++ expected_requests clock k (filter image_regex before ++ [name]) /\
        snd (loop blobs stop st) = Some e).
Proof.
  induction blobs as [|name rest IH]; intros st k.
  - left; exists []; simpl; rewrite !app_nil_r; repeat split; constructor.
  - cbn [Storage.loop filter].
    destruct (image_regex name) eqn:M.
    + destruct (sign {| blob := name;
                        options := sasOptions (js "r") (clock (List.length (requests st))) |})
        as [token|e] eqn:Hs.
      * specialize (IH {| imageUrls := imageUrls st ++ [token];
                          blobCount := blobCount st + 1;
                          requests := requests st ++
                            [{| blob := name;
                                options := sasOptions (js "r")
                                             (clock (List.length (requests st))) |}] |}).
        cbn [imageUrls requests] in IH.
        rewrite length_app in IH; cbn [List.length] in IH.
        replace (List.length (requests st) + 1)%nat with (S k) in IH by (subst k; lia).
        destruct IH as [[urls [F [U [R E]]]]|[before [n [after [urls [e [B [Mn [F [Sn [U [R E]]]]]]]]]]]].
        -- left; exists (token :: urls); repeat split.
           ++ cbn [expected_requests]; constructor; [exact Hs | exact F].
           ++ rewrite U, <- app_assoc; reflexivity.
           ++ rewrite R, <- app_assoc; reflexivity.
           ++ exact E.
        -- right; exists (name :: before), n, after, (token :: urls), e.
           cbn [filter]; rewrite M.
           repeat split.
           ++ rewrite B; reflexivity.
           ++ exact Mn.
           ++ cbn [expected_requests]; constructor; [exact Hs | exact F].
           ++ cbn [List.length]; rewrite Nat.add_succ_r; exact Sn.
           ++ rewrite U, <- app_assoc; reflexivity.
           ++ rewrite R, <- app_assoc; reflexivity.
           ++ exact E.
      * right; exists [], name, rest, [], e.
        cbn [filter app List.length expected_requests imageUrls requests fst snd].
        rewrite Nat.add_0_r, app_nil_r; repeat split; auto; constructor.
    + specialize (IH {| imageUrls := imageUrls st;
                        blobCount := blobCount st + 1;
                        requests := requests st |}).
      cbn [imageUrls requests] in IH.
      destruct IH as [[urls [F [U [R E]]]]|[before [n [after [urls [e [B [Mn [F [Sn [U [R E]]]]]]]]]]]].
      -- left; exists urls; repeat split; assumption.
      -- right; exists (name :: before), n, after, urls, e.
         cbn [filter]; rewrite M; repeat split; try assumption.
         rewrite B; reflexivity.
Qed.

Lemma get_images_unfold (listing : Listing) :
  let r := loop (names listing) (failure listing) start in
  get_images listing
  = (match snd r with
     | Some error => {| status := 500; body := error_body (error_message error) |}
     | None =>
         if Z.of_nat (List.length (imageUrls (fst r))) =? 0
         then {| status := 404; body := error_body (js "No images found") |}
         else {| status := 200; body := JArray (List.map JString (imageUrls (fst r))) |}
     end, requests (fst r)).
Proof.
  cbn zeta; unfold Storage.get_images.
  destruct (loop (names listing) (failure listing) start) as [st [e|]];
    cbn [fst snd]; [reflexivity|].
  destruct (Z.of_nat (List.length (imageUrls st)) =? 0); reflexivity.
Qed.

Lemma filter_split (before after : list jsstring) (name : jsstring) :
  image_regex name = true ->
  filter image_regex (before ++ name :: after)
  = (filter image_regex before ++ [name]) ++ filter image_regex after.
Proof.
  intros M; rewrite filter_app; cbn [filter]; rewrite M, <- app_assoc; reflexivity.
Qed.

(** X5.  Whatever the signer does, the requests of [/get-images] are the
    expected requests for an initial part of the matching names, in the
    order of the listing: a name that does not match is never signed, and
    no name is signed twice. *)
Theorem get_images_requests_prefix (listing : Listing) :
  exists n,
    snd (get_images listing)
    = expected_requests clock 0
        (firstn n (filter image_regex (names listing))).
Proof.
  rewrite get_images_unfold; cbn [snd].
  destruct (loop_cases (names listing) (failure listing) start)
    as [[urls [_ [_ [R _]]]]|[before [name [after [urls [e [B [M [_ [_ [_ [R _]]]]]]]]]]]];
    cbn [start requests List.length app] in R; rewrite R.
  - exists (List.length (filter image_regex (names listing))).
    rewrite firstn_all; reflexivity.
  - exists (List.length (filter image_regex before ++ [name])).
    rewrite B, (filter_split before after name M), firstn_app, firstn_all,
      Nat.sub_diag; cbn [firstn]; rewrite app_nil_r; reflexivity.
Qed.

(** X6.  Whatever the signer does: when [/get-images] answers 200, the
    listing has completed, the body is a non-empty array with the URL
    that the signer returned for each matching name, in order, and every
    one of these requests succeeded. *)
Theorem get_images_status_200 (listing : Listing) :
  status (fst (get_images listing)) = 200 ->
  failure listing = None /\
  exists urls,
    urls <> [] /\
    body (fst (get_images listing)) = JArray (List.map JString urls) /\
    Forall2 (fun r u => sign r = Normal u)
      (expected_requests clock 0 (filter image_regex (names listing))) urls /\
    snd (get_images listing)
    = expected_requests clock 0 (filter image_regex (names listing)).
Proof.
  rewrite get_images_unfold; cbn [fst snd].
  destruct (loop_cases (names listing) (failure listing) start)
    as [[urls [F [U [R E]]]]|[before [name [after [urls [e [_ [_ [_ [_ [_ [_ E]]]]]]]]]]]];
    rewrite E; [|discriminate].
  cbn [start imageUrls requests List.length app] in U, R, F.
  destruct (failure listing); [discriminate|].
  rewrite U, R.
  destruct (Z.eqb_spec (Z.of_nat (List.length urls)) 0) as [Z0|NZ]; [discriminate|].
  intros _; split; [reflexivity|].
  exists urls; repeat split; try assumption.
  intros ->; apply NZ; reflexivity.
Qed.

(** X7.  Whatever the signer does, [/get-images] answers 404 exactly when
    the listing has completed and none of its names matches. *)
Theorem get_images_status_404 (listing : Listing) :
  status (fst (get_images listing)) = 404 <->
  failure listing = None /\ filter image_regex (names listing) = [].
Proof.
  split.
  - rewrite get_images_unfold; cbn [fst snd].
    destruct (loop_cases (names listing) (failure listing) start)
      as [[urls [F [U [R E]]]]|[before [name [after [urls [e [_ [_ [_ [_ [_ [_ E]]]]]]]]]]]];
      rewrite E; [|discriminate].
    cbn [start imageUrls requests List.length app] in U, F.
    destruct (failure listing); [discriminate|].
    rewrite U.
    destruct (Z.eqb_spec (Z.of_nat (List.length urls)) 0) as [Z0|NZ]; [|discriminate].
    intros _; split; [reflexivity|].
    destruct urls; [|simpl in Z0; lia].
    inversion F as [E0|]; clear F.
    destruct (filter image_regex (names listing)); [reflexivity | discriminate].
  - intros [Hf Hn]; rewrite get_images_unfold; cbn [fst].
    rewrite (loop_no_image sign clock (names listing) (failure listing) Hn start), Hf.
    reflexivity.
Qed.

(** X8.  When the enumeration of the container breaks off with an error,
    [/get-images] answers 500 with the message of that error, even though
    every matching name yielded so far has been signed: the URLs already
    obtained are not sent. *)
Theorem get_images_listing_failure (listing : Listing) (url : SasRequest -> jsstring)
  (e : JsError) :
  failure listing = Some e ->
  (forall r, sign r = Normal (url r)) ->
  get_images listing
  = ({| status := 500; body := error_body (error_message e) |},
     expected_requests clock 0 (filter image_regex (names listing))).
Proof.
  intros Hf Hs; rewrite get_images_unfold.
  rewrite (loop_signed sign clock url (failure listing) Hs (names listing) start), Hf.
  reflexivity.
Qed.

Lemma loop_stops (before after : list jsstring) (name : jsstring)
  (stop : option JsError) (e : JsError) :
  image_regex name = true ->
  forall st,
    (forall r,
        In r (expected_requests clock (List.length (requests st))
                (filter image_regex before)) ->
        exists u, sign r = Normal u) ->
    sign {| blob := name;
            options := sasOptions (js "r")
                         (clock (List.length (requests st)
                                 + List.length (filter image_regex before))) |}
    = Throw e ->
    requests (fst (loop (before ++ name :: after) stop st))
    = requests st
      ++ expected_requests clock (List.length (requests st))
           (filter image_regex before ++ [name]) /\
    snd (loop (before ++ name :: after) stop st) = Some e.
Proof.
  intros M; induction before as [|b before IH]; intros st Hok Hfail.
  - cbn [app filter List.length] in *; rewrite Nat.add_0_r in Hfail.
    cbn [Storage.loop]; rewrite M, Hfail; cbn [fst snd requests expected_requests].
    split; reflexivity.
  - change ((b :: before) ++ name :: after) with (b :: (before ++ name :: after)).
    cbn [Storage.loop]; cbn [filter] in Hok, Hfail |- *.
    destruct (image_regex b).
    + cbn [expected_requests List.length app] in Hok, Hfail |- *.
      destruct (Hok _ (or_introl eq_refl)) as [u Hu].
      assert (Hu' : sign {| blob := b;
                            options := sasOptions (js "r")
                                         (clock (List.length (requests st))) |}
                    = Normal u) by exact Hu.
      rewrite Hu'.
      match goal with
      | |- context [Storage.loop sign clock _ stop ?st'] =>
          specialize (IH st')
      end.
      cbn [requests] in IH; rewrite length_app in IH; cbn [List.length] in IH.
      replace (List.length (requests st) + 1)%nat
        with (S (List.length (requests st))) in IH by lia.
      destruct IH as [R E].
      * intros r Hr; apply Hok; right; exact Hr.
      * rewrite <- Nat.add_succ_comm in Hfail; exact Hfail.
      * rewrite R, E, <- app_assoc; split; reflexivity.
    + match goal with
      | |- context [Storage.loop sign clock _ stop ?st'] =>
          specialize (IH st')
      end.
      cbn [requests] in IH; exact (IH Hok Hfail).
Qed.

(** X9.  When the signer fails for a matching name after succeeding for
    the matching names before it, [/get-images] answers 500 with the
    message of that failure; the names after it are not signed, and the
    URLs already obtained are not sent. *)
Theorem get_images_signer_failure (listing : Listing)
  (before after : list jsstring) (name : jsstring) (e : JsError) :
  names listing = before ++ name :: after ->
  image_regex name = true ->
  (forall r,
      In r (expected_requests clock 0 (filter image_regex before)) ->
      exists u, sign r = Normal u) ->
  sign {| blob := name;
          options := sasOptions (js "r")
                       (clock (List.length (filter image_regex before))) |}
  = Throw e ->
  get_images listing
  = ({| status := 500; body := error_body (error_message e) |},
     expected_requests clock 0 (filter image_regex before ++ [name])).
Proof.
  intros Hn M Hok Hfail; rewrite get_images_unfold, Hn.
  destruct (loop_stops before after name (failure listing) e M start Hok Hfail)
    as [R E].
  rewrite R, E; reflexivity.
Qed.

End MoreStorageFacts.

(** ** The image pattern and the last dot of a name *)

Module MoreRegexFacts.

Import Storage.

Lemma image_regex_no_dot (name : jsstring) :
  lacks 46%N name -> image_regex name = false.
Proof.
  induction name as [|c name IH]; intros H; [reflexivity|].
  apply JsStringFacts.lacks_cons in H; destruct H as [Hc Hn].
  cbn [image_regex image_at]; rewrite (IH Hn), orb_false_r.
  destruct c as [|q]; [reflexivity|].
  do 6 (destruct q as [q|q|]; try reflexivity); discriminate.
Qed.

Lemma extension_has_no_dot (a b pat : jsstring) :
  In pat imageExtensions -> matches_ci (a ++ 46%N :: b) pat = false.
Proof.
  intros I; destruct (matches_ci (a ++ 46%N :: b) pat) eqn:E; [|reflexivity].
  pose proof RegexFacts.imageExtensions_lowercase as L.
  rewrite Forall_forall in L; specialize (L pat I).
  apply (RegexFacts.matches_ci_lower pat L) in E.
  rewrite Forall_forall in L.
  assert (D : In 46%N pat).
  { rewrite <- E, map_app; apply in_or_app; right; left; reflexivity. }
  specialize (L 46%N D); unfold lowercase in L; lia.
Qed.

Lemma image_at_dotted (a b : jsstring) (c : code_unit) :
  image_at (c :: a ++ 46%N :: b) = false.
Proof.
  cbn [image_at].
  assert (F : existsb (matches_ci (a ++ 46%N :: b)) imageExtensions = false).
  { destruct (existsb (matches_ci (a ++ 46%N :: b)) imageExtensions) eqn:E;
      [|reflexivity].
    apply existsb_exists in E; destruct E as [pat [I M]].
    rewrite (extension_has_no_dot a b pat I) in M; discriminate. }
  rewrite F.
  destruct c as [|q]; [reflexivity|].
  do 6 (destruct q as [q|q|]; try reflexivity).
Qed.

(** X10.  Only the text after the last dot of a name decides: the name
    matches exactly when that text is one of jpg, jpeg, png, gif, jfif in
    any letter case, whatever stands before the dot; a name without any
    dot never matches. *)
Theorem image_regex_last_dot :
  (forall stem ext,
      lacks 46%N ext ->
      (image_regex (stem ++ 46%N :: ext) = true
       <-> In (List.map lower ext) imageExtensions)) /\
  (forall name, lacks 46%N name -> image_regex name = false).
Proof.
  split; [|exact image_regex_no_dot].
  intros stem ext He.
  assert (R : image_regex (stem ++ 46%N :: ext) = image_at (46%N :: ext)).
  { induction stem as [|c stem IH].
    - cbn [app image_regex]; rewrite (image_regex_no_dot ext He), orb_false_r.
      reflexivity.
    - change ((c :: stem) ++ 46%N :: ext) with (c :: stem ++ 46%N :: ext).
      cbn [image_regex]; rewrite IH, (image_at_dotted stem ext c); reflexivity. }
  rewrite R, RegexFacts.image_at_spec; split.
  - intros [ext' [E I]]; injection E as <-; exact I.
  - intros I; exists ext; split; [reflexivity | exact I].
Qed.

End MoreRegexFacts.

(** ** Start-up: the first missing variable *)

Module MoreBootstrapFacts.

Import Bootstrap.

Lemma forEach_first (env : Env) (before after : list jsstring) (key : jsstring) :
  (forall k, In k before -> missing env k = false) ->
  missing env key = true ->
  forEach env (before ++ key :: after) = report key.
Proof.
  intros Hb Hk; induction before as [|b before IH]; cbn [app forEach].
  - rewrite Hk; reflexivity.
  - rewrite (Hb b (or_introl eq_refl)); apply IH.
    intros k I; apply Hb; right; exact I.
Qed.

(** X11.  The check reports the first of the four variables, in the order
    of the list, that is absent or empty, and the process ends there: one
    error line, exit status 1, whatever the variables further down the
    list hold. *)
Theorem first_missing_key_is_reported (env : Env)
  (before after : list jsstring) (key : jsstring) :
  requiredEnvVars = before ++ key :: after ->
  (forall k, In k before -> exists c s, env k = Some (c :: s)) ->
  env key = None \/ env key = Some [] ->
  main env = [ConsoleError (js "X Missing environment variable: " ++ key); Exit 1].
Proof.
  intros Hr Hb Hk; unfold main; rewrite Hr.
  rewrite (forEach_first env before after key); [reflexivity| |].
  - intros k I; destruct (Hb k I) as [c [s E]]; unfold missing; rewrite E; reflexivity.
  - apply BootstrapFacts.missing_iff; exact Hk.
Qed.

End MoreBootstrapFacts.

(** ** Where a character occurs first and last *)

Module OccurrenceFacts.

Lemma first_occurrence (c : code_unit) (s : jsstring) :
  lacks c s \/ exists pre rest, s = pre ++ c :: rest /\ lacks c pre.
Proof.
  induction s as [|d s IH]; [left; reflexivity|].
  destruct (N.eqb_spec d c) as [->|N].
  - right; exists [], s; split; reflexivity.
  - destruct IH as [L|[pre [rest [E L]]]].
    + left; unfold lacks; simpl.
      apply N.eqb_neq in N; rewrite N; exact L.
    + right; exists (d :: pre), rest; split; [rewrite E; reflexivity|].
      unfold lacks; simpl; apply N.eqb_neq in N; rewrite N; exact L.
Qed.

Lemma last_occurrence (c : code_unit) (s : jsstring) :
  lacks c s \/ exists a b, s = a ++ c :: b /\ lacks c b.
Proof.
  induction s as [|d s IH]; [left; reflexivity|].
  destruct IH as [L|[a [b [E L]]]].
  - destruct (N.eqb_spec d c) as [->|N].
    + right; exists [], s; split; [reflexivity | exact L].
    + left; unfold lacks; simpl; apply N.eqb_neq in N; rewrite N; exact L.
  - right; exists (d :: a), b; split; [rewrite E; reflexivity | exact L].
Qed.

Lemma lastIndexOf_lacks (c : code_unit) (s : jsstring) :
  lacks c s -> lastIndexOf s [c] = -1.
Proof.
  intros L; exact (JsStringFacts.lastIndexOf_from_lacks c s L 0 (-1)).
Qed.

Lemma trimEnd_cons (a : code_unit) (l : jsstring) :
  isWhiteSpace a = false -> trimEnd (a :: l) = a :: trimEnd l.
Proof.
  intros Ha; unfold trimEnd; cbn [rev].
  rewrite (JsStringFacts.trimStart_app (rev l) [] a Ha), rev_app_distr.
  reflexivity.
Qed.

Lemma trim_cons (a : code_unit) (l : jsstring) :
  isWhiteSpace a = false -> trim (a :: l) = a :: trimEnd l.
Proof.
  intros Ha; unfold trim; cbn [trimStart]; rewrite Ha.
  exact (trimEnd_cons a l Ha).
Qed.

Lemma substring2_empty (s : jsstring) : substring2 s 0 0 = [].
Proof.
  unfold substring2, clamp, JsString.length.
  replace (Z.min (Z.max 0 0) (Z.of_nat (List.length s))) with 0 by lia.
  reflexivity.
Qed.

End OccurrenceFacts.

(** ** [/extract-text]: what is handed to [JSON.parse], and the two shape checks *)

Section MoreExtractionFacts.

Variable JSON_parse : jsstring -> option JSON.

Import ExtractText.

Local Abbreviation parse := (ExtractText.parse JSON_parse).
Local Abbreviation translatedText := (ExtractText.translatedText JSON_parse).

(** X12.  For every OCR reply, the text handed to [JSON.parse] is the reply
    from its first opening brace on, and the whole reply when it has no
    brace: nothing after the first brace is ever dropped. *)
Theorem jsonString_from_first_brace (rawResponse : jsstring) :
  (lacks 123%N rawResponse /\ jsonString rawResponse = rawResponse) \/
  (exists pre rest,
      rawResponse = pre ++ 123%N :: rest /\ lacks 123%N pre /\
      jsonString rawResponse = 123%N :: rest).
Proof.
  destruct (OccurrenceFacts.first_occurrence 123%N rawResponse)
    as [L|[pre [rest [E L]]]].
  - left; split; [exact L|].
    unfold jsonString, jsonStartIndex; change (js "{") with [123%N].
    rewrite (JsStringFacts.indexOf_lacks 123%N rawResponse L).
    apply JsStringFacts.substring_negative; lia.
  - right; exists pre, rest; repeat split; try assumption.
    rewrite E; exact (jsonString_prefix pre rest L).
Qed.

Lemma cleanJsonString_from_bracket (pre rest : jsstring) :
  lacks 91%N pre ->
  cleanJsonString (pre ++ 91%N :: rest)
  = Normal (substring2 (91%N :: trimEnd rest) 0
              (lastIndexOf (91%N :: trimEnd rest) [93%N] + 1)).
Proof.
  intros L; unfold cleanJsonString.
  change (js "[") with [91%N]; change (js "]") with [93%N].
  rewrite (JsStringFacts.indexOf_prefix 91%N pre rest L).
  destruct (Z.eqb_spec (Z.of_nat (List.length pre)) (-1)) as [E|_]; [lia|].
  rewrite JsStringFacts.slice_suffix, (OccurrenceFacts.trim_cons 91%N rest eq_refl).
  reflexivity.
Qed.

(** X13.  For every translation reply, the bounded substring step either
    throws its own error (exactly when the reply has no opening bracket),
    or yields the empty string, or yields a text that starts with an
    opening bracket and ends with a closing one. *)
Theorem cleanJsonString_shape (rawResponseData : jsstring) :
  (lacks 91%N rawResponseData /\
   cleanJsonString rawResponseData
   = Throw (Error (js "No JSON found in the response."))) \/
  (~ lacks 91%N rawResponseData /\
   (cleanJsonString rawResponseData = Normal [] \/
    exists mid, cleanJsonString rawResponseData = Normal (91%N :: mid ++ [93%N]))).
Proof.
  destruct (OccurrenceFacts.first_occurrence 91%N rawResponseData)
    as [L|[pre [rest [E L]]]].
  - left; split; [exact L|].
    unfold cleanJsonString; change (js "[") with [91%N].
    rewrite (JsStringFacts.indexOf_lacks 91%N rawResponseData L); reflexivity.
  - right; split.
    + rewrite E; intros H; apply JsStringFacts.lacks_app in H; destruct H as [_ H].
      apply JsStringFacts.lacks_cons in H; destruct H as [H _]; discriminate.
    + rewrite E, (cleanJsonString_from_bracket pre rest L).
      destruct (OccurrenceFacts.last_occurrence 93%N (trimEnd rest))
        as [Lt|[a [b [Et Lb]]]].
      * left.
        assert (L93 : lacks 93%N (91%N :: trimEnd rest))
          by (unfold lacks; simpl; exact Lt).
        rewrite (OccurrenceFacts.lastIndexOf_lacks 93%N _ L93).
        rewrite OccurrenceFacts.substring2_empty; reflexivity.
      * right; exists a; rewrite Et.
        change (91%N :: a ++ 93%N :: b) with ((91%N :: a) ++ 93%N :: b).
        rewrite (JsStringFacts.lastIndexOf_last 93%N (91%N :: a) b Lb).
        replace ((91%N :: a) ++ 93%N :: b) with ((91%N :: a ++ [93%N]) ++ b)
          by (simpl; rewrite <- app_assoc; reflexivity).
        replace (Z.of_nat (List.length (91%N :: a)) + 1)
          with (Z.of_nat (List.length (91%N :: a ++ [93%N])))
          by (cbn [List.length]; rewrite length_app; cbn [List.length]; lia).
        rewrite JsStringFacts.substring2_prefix; reflexivity.
Qed.

(** X14.  A translation reply that has an opening bracket and no closing
    bracket after it hands the empty string to [JSON.parse]: there is no
    error of the handler's own for a missing closing bracket. *)
Theorem cleanJsonString_without_closing_bracket (pre rest : jsstring) :
  lacks 91%N pre ->
  lacks 93%N rest ->
  cleanJsonString (pre ++ 91%N :: rest) = Normal [] /\
  translatedText (pre ++ 91%N :: rest) = bind (parse []) translatedTextOf.
Proof.
  intros Lp Lr.
  assert (C : cleanJsonString (pre ++ 91%N :: rest) = Normal []).
  { rewrite (cleanJsonString_from_bracket pre rest Lp).
    assert (L93 : lacks 93%N (91%N :: trimEnd rest))
      by (unfold lacks; simpl; exact (JsStringFacts.trimEnd_lacks 93%N rest Lr)).
    rewrite (OccurrenceFacts.lastIndexOf_lacks 93%N _ L93).
    rewrite OccurrenceFacts.substring2_empty; reflexivity. }
  split; [exact C|].
  unfold ExtractText.translatedText; rewrite C; reflexivity.
Qed.

(** X15.  The OCR reply passes the shape check exactly when it is an
    object whose member [regions] is an array; an empty array passes. *)
Theorem invalidVision_spec (data : JSON) :
  invalidVision data = false <->
  exists members regions,
    data = JObject members /\ lookup members (js "regions") = Some (JArray regions).
Proof.
  unfold invalidVision; split.
  - destruct data as [| | | | |members]; cbn [truthy prop negb orb truthy_opt];
      try discriminate;
      try (destruct b; discriminate);
      try (destruct (negb (PrimFloat.eqb x 0 || PrimFloat.is_nan x)); discriminate);
      try (destruct s; discriminate).
    destruct (lookup members (js "regions")) as [[| | | |regions|]|] eqn:E;
      cbn [truthy_opt truthy isArray negb orb]; try discriminate;
      try (destruct b; discriminate);
      try (destruct (negb (PrimFloat.eqb x 0 || PrimFloat.is_nan x)); discriminate);
      try (destruct s; discriminate).
    intros _; exists members, regions; split; [reflexivity | exact E].
  - intros [members [regions [-> E]]]; cbn [truthy prop negb orb]; rewrite E.
    reflexivity.
Qed.

Lemma translatedTextOf_truthy (translateData text : JSON) :
  translatedTextOf translateData = Normal text -> truthy text = true.
Proof.
  unfold translatedTextOf.
  destruct translateData as [| | | |[|first rest]|]; try discriminate.
  destruct (firstTranslation first) as [entry|]; [|discriminate].
  destruct (truthy entry); cbn [andb]; [|discriminate].
  destruct (prop entry (js "text")) as [t|]; cbn [truthy_opt]; [|discriminate].
  destruct (truthy t) eqn:Tt; [|discriminate].
  intros H; injection H as <-; exact Tt.
Qed.

(** X16.  The checks on the parsed translation succeed exactly when the
    value is a non-empty array, the first entry of [translations] of its
    first element is truthy, and the [text] of that entry is truthy; the
    result is that text, so it is never empty, and later elements and
    entries play no role. *)
Theorem translatedTextOf_success (translateData text : JSON) :
  translatedTextOf translateData = Normal text <->
  exists first rest entry,
    translateData = JArray (first :: rest) /\
    firstTranslation first = Some entry /\
    truthy entry = true /\
    prop entry (js "text") = Some text /\
    truthy text = true.
Proof.
  unfold translatedTextOf; split.
  - destruct translateData as [| | | |[|first rest]|]; try discriminate.
    destruct (firstTranslation first) as [entry|] eqn:F; [|discriminate].
    destruct (truthy entry) eqn:T; cbn [andb]; [|discriminate].
    destruct (prop entry (js "text")) as [t|] eqn:P; cbn [truthy_opt]; [|discriminate].
    destruct (truthy t) eqn:Tt; [|discriminate].
    intros H; injection H as <-.
    exists first, rest, entry; repeat split; assumption.
  - intros [first [rest [entry [-> [F [T [P Tt]]]]]]].
    rewrite F, T, P; cbn [andb truthy_opt]; rewrite Tt; reflexivity.
Qed.

End MoreExtractionFacts.

(** ** [/extract-text]: the text of a well-formed OCR reply *)

Section TextLoopFacts.

Variable Number_toString : float -> jsstring.

Import ExtractText OcrReply.

Local Abbreviation lineText := (ExtractText.lineText Number_toString).
Local Abbreviation forEachLine := (ExtractText.forEachLine Number_toString).
Local Abbreviation forEachRegion := (ExtractText.forEachRegion Number_toString).

Lemma prop_Get (v : JSON) (k : jsstring) (x : JSON) :
  prop v k = Some x -> Get v k = Normal (Some x).
Proof.
  destruct v; simpl; intros H; try discriminate; rewrite H; reflexivity.
Qed.

Lemma word_texts (words : list JSON) (ts : list jsstring) :
  Forall2 WordOf words ts ->
  mapM (fun word => Get word (js "text")) words
  = Normal (List.map (fun t => Some (JString t)) ts).
Proof.
  induction 1 as [|w t words ts Hw _ IH]; [reflexivity|].
  cbn [mapM List.map]; rewrite (prop_Get w (js "text") (JString t) Hw), IH.
  reflexivity.
Qed.

Lemma lineText_of (line : JSON) (ts : list jsstring) :
  LineOf line ts -> lineText line = Normal (lineString ts).
Proof.
  intros [words [P W]]; unfold ExtractText.lineText.
  rewrite (prop_Get line (js "words") (JArray words) P); cbn [bind asArray].
  rewrite (word_texts words ts W); cbn [bind].
  rewrite JoinFacts.join_strings_only; reflexivity.
Qed.

Lemma forEachLine_of (lines : list JSON) (tss : list (list jsstring)) :
  Forall2 LineOf lines tss ->
  forall acc,
    forEachLine lines acc = Normal (acc ++ List.concat (List.map lineString tss)).
Proof.
  induction 1 as [|l ts lines tss Hl _ IH]; intros acc.
  - simpl; rewrite app_nil_r; reflexivity.
  - cbn [ExtractText.forEachLine]; rewrite (lineText_of l ts Hl); cbn [bind].
    rewrite IH; cbn [List.map List.concat]; rewrite app_assoc; reflexivity.
Qed.

Lemma forEachRegion_collects (regions : list JSON) (lines : list (list (list jsstring))) :
  Forall2 RegionOf regions lines ->
  forall acc,
    forEachRegion regions acc
    = Normal (acc ++ List.concat (List.map lineString (List.concat lines))).
Proof.
  induction 1 as [|r ls regions lines [items [P L]] _ IH]; intros acc.
  - simpl; rewrite app_nil_r; reflexivity.
  - cbn [ExtractText.forEachRegion].
    rewrite (prop_Get r (js "lines") (JArray items) P); cbn [bind asArray].
    rewrite (forEachLine_of items ls L); cbn [bind].
    rewrite IH; cbn [List.concat]; rewrite map_app, concat_app, app_assoc; reflexivity.
Qed.

(** X17.  For an OCR reply whose regions hold lines and whose lines hold
    words with string texts, the text loop never fails, and what it
    collects is, line after line and region after region in the order of
    the reply, the words of the line separated by single spaces and
    followed by one space. *)
Theorem forEachRegion_of (regions : list JSON) (lines : list (list (list jsstring))) :
  Forall2 RegionOf regions lines ->
  forall extractedText,
    forEachRegion regions extractedText
    = Normal (extractedText
              ++ List.concat (List.map lineString (List.concat lines))).
Proof.
  intros H acc; exact (forEachRegion_collects regions lines H acc).
Qed.

Lemma line_LineOf (ts : list jsstring) : LineOf (line ts) ts.
Proof.
  exists (List.map word ts); split; [reflexivity|].
  induction ts; constructor; [reflexivity | assumption].
Qed.

Lemma region_RegionOf (lines : list (list jsstring)) : RegionOf (region lines) lines.
Proof.
  exists (List.map line lines); split; [reflexivity|].
  induction lines; constructor; [apply line_LineOf | assumption].
Qed.

End TextLoopFacts.

(** ** [/extract-text]: the calls made, and what a 200 stands for *)

Section TraceFacts.

Variable JSON_parse : jsstring -> option JSON.
Variable Number_toString : float -> jsstring.

Import ExtractText.

Local Abbreviation afterVision :=
  (ExtractTextTrace.afterVision JSON_parse Number_toString).
Local Abbreviation extract_text :=
  (ExtractText.extract_text JSON_parse Number_toString).
Local Abbreviation traced :=
  (ExtractTextTrace.extract_text JSON_parse Number_toString).
Local Abbreviation toString := (toString Number_toString).

Lemma ocr_afterVision (w : World) (p : jsstring) :
  ExtractText.ocr JSON_parse Number_toString w p
  = (imageBuffer <- readFileSync w p ;;
     data <- visionPost w imageBuffer ;;
     afterVision data).
Proof. reflexivity. Qed.

Lemma afterVision_answered (data : JSON) (r : Response) :
  afterVision data = Normal (inl r) -> r = failed msgInvalidVision.
Proof.
  unfold ExtractTextTrace.afterVision.
  destruct (toString data) as [raw|]; cbn [bind]; [|discriminate].
  destruct (visionData JSON_parse raw) as [vision|]; cbn [bind]; [|discriminate].
  destruct (invalidVision vision); [intros H; injection H as <-; reflexivity|].
  destruct (asArray (prop vision (js "regions"))) as [regions|]; cbn [bind];
    [|discriminate].
  destruct (forEachRegion Number_toString regions []) as [text|]; cbn [bind];
    [|discriminate].
  destruct (negb (truthy (JString (trim text)))); discriminate.
Qed.

Lemma afterVision_text (data : JSON) (text : jsstring) :
  afterVision data = Normal (inr text) ->
  text <> [] /\ exists collected, text = trim collected.
Proof.
  unfold ExtractTextTrace.afterVision.
  destruct (toString data) as [raw|]; cbn [bind]; [|discriminate].
  destruct (visionData JSON_parse raw) as [vision|]; cbn [bind]; [|discriminate].
  destruct (invalidVision vision); [discriminate|].
  destruct (asArray (prop vision (js "regions"))) as [regions|]; cbn [bind];
    [|discriminate].
  destruct (forEachRegion Number_toString regions []) as [collected|]; cbn [bind];
    [|discriminate].
  destruct (trim collected) as [|c s] eqn:T; cbn [truthy negb]; [discriminate|].
  intros H; injection H as <-; split; [discriminate|].
  exists collected; symmetry; exact T.
Qed.

(** The handler with its calls answers as the handler without them. *)
Lemma traced_response (w : World) (file : option File) :
  snd (traced w file) = extract_text w file.
Proof.
  destruct file as [f|]; [|reflexivity].
  unfold ExtractTextTrace.extract_text, ExtractText.extract_text,
    ExtractTextTrace.pipeline, ExtractText.pipeline.
  rewrite ocr_afterVision.
  unfold ExtractTextTrace.ocr, ExtractTextTrace.translate, ExtractText.translate,
    ExtractTextTrace.andThen, ExtractTextTrace.perform, ExtractTextTrace.silent.
  destruct (readFileSync w (path f)) as [buf|]; cbn [bind]; [|reflexivity].
  destruct (visionPost w buf) as [data|]; cbn [bind]; [|reflexivity].
  destruct (afterVision data) as [[r|text]|]; cbn [bind]; try reflexivity.
  destruct (translatorPost w text) as [tdata|]; cbn [bind]; [|reflexivity].
  destruct (toString tdata) as [raw|]; cbn [bind]; [|reflexivity].
  destruct (translatedText JSON_parse raw) as [t|]; cbn [bind]; [|reflexivity].
  destruct (unlinkSync w (path f)); reflexivity.
Qed.

(** X18.  With a file, the handler reads the upload, posts it to the OCR
    provider, posts the text to the translator and deletes the upload, in
    this order, each once, and it goes on exactly until the first step
    that fails: the calls made are the read alone when the read fails;
    the read and the OCR post when the post fails or the reply yields no
    text to translate; these and the translator post (with that non-empty
    text) when the translator fails or its reply is refused; all four
    otherwise.  A 200 is sent only after all four calls. *)
Theorem extract_text_calls_in_order (w : World) (f : File) :
  let p := path f in
  let calls := fst (traced w (Some f)) in
  let ocr := ExtractText.ocr JSON_parse Number_toString w p in
  (forall e, readFileSync w p = Throw e ->
     calls = [ExtractTextTrace.ReadFile p]) /\
  (forall imageBuffer e,
     readFileSync w p = Normal imageBuffer ->
     visionPost w imageBuffer = Throw e ->
     calls = [ExtractTextTrace.ReadFile p; ExtractTextTrace.VisionPost imageBuffer]) /\
  (forall imageBuffer data,
     readFileSync w p = Normal imageBuffer ->
     visionPost w imageBuffer = Normal data ->
     (forall text, ocr <> Normal (inr text)) ->
     calls = [ExtractTextTrace.ReadFile p; ExtractTextTrace.VisionPost imageBuffer]) /\
  (forall imageBuffer text,
     readFileSync w p = Normal imageBuffer ->
     ocr = Normal (inr text) ->
     text <> [] /\
     (forall e,
        translatorPost w text = Throw e ->
        calls = [ExtractTextTrace.ReadFile p; ExtractTextTrace.VisionPost imageBuffer;
                 ExtractTextTrace.TranslatorPost text]) /\
     (forall tdata e,
        translatorPost w text = Normal tdata ->
        (raw <- toString tdata ;; translatedText JSON_parse raw) = Throw e ->
        calls = [ExtractTextTrace.ReadFile p; ExtractTextTrace.VisionPost imageBuffer;
                 ExtractTextTrace.TranslatorPost text]) /\
     (forall tdata translated,
        translatorPost w text = Normal tdata ->
        (raw <- toString tdata ;; translatedText JSON_parse raw) = Normal translated ->
        calls = [ExtractTextTrace.ReadFile p; ExtractTextTrace.VisionPost imageBuffer;
                 ExtractTextTrace.TranslatorPost text; ExtractTextTrace.Unlink p])) /\
  (status (snd (traced w (Some f))) = 200 ->
   exists imageBuffer text,
     calls = [ExtractTextTrace.ReadFile p; ExtractTextTrace.VisionPost imageBuffer;
              ExtractTextTrace.TranslatorPost text; ExtractTextTrace.Unlink p] /\
     unlinkSync w p = Normal tt).
Proof.
  cbn zeta.
  unfold ExtractTextTrace.extract_text, ExtractTextTrace.pipeline.
  rewrite ocr_afterVision.
  unfold ExtractTextTrace.ocr, ExtractTextTrace.translate,
    ExtractTextTrace.andThen, ExtractTextTrace.perform, ExtractTextTrace.silent.
  destruct (readFileSync w (path f)) as [buf|e0] eqn:R; cbn [bind].
  2:{ repeat split; intros; try discriminate; reflexivity. }
  destruct (visionPost w buf) as [data|e1] eqn:V; cbn [bind].
  2:{ split; [intros; discriminate|].
      split; [intros b e Hb _; injection Hb as <-; reflexivity|].
      split; [intros b d Hb Hv; injection Hb as <-; rewrite V in Hv; discriminate|].
      split; [intros b text _ H; discriminate | intros H; discriminate]. }
  destruct (afterVision data) as [[r|text]|e2] eqn:A; cbn [bind].
  - split; [intros; discriminate|].
    split; [intros b e Hb Hv; injection Hb as <-; rewrite V in Hv; discriminate|].
    split; [intros b d Hb _ _; injection Hb as <-; reflexivity|].
    split; [intros b text _ H; discriminate|].
    rewrite (afterVision_answered data r A); intros H; discriminate.
  - destruct (afterVision_text data text A) as [Ht _].
    split; [intros; discriminate|].
    split; [intros b e Hb Hv; injection Hb as <-; rewrite V in Hv; discriminate|].
    split; [intros b d _ _ H; exfalso; exact (H text eq_refl)|].
    split.
    + intros b text' Hb Ho; injection Hb as <-; injection Ho as <-.
      split; [exact Ht|].
      split; [intros e He; rewrite He; reflexivity|].
      split; intros tdata x Hp Hx; rewrite Hp; cbn [bind]; rewrite Hx;
        [reflexivity|].
      destruct (unlinkSync w (path f)); reflexivity.
    + destruct (translatorPost w text) as [tdata|]; cbn [bind];
        [|intros H; discriminate].
      destruct (raw <- toString tdata ;; translatedText JSON_parse raw) as [t|];
        cbn [bind]; [|intros H; discriminate].
      destruct (unlinkSync w (path f)) as [[]|]; cbn [bind];
        [|intros H; discriminate].
      intros _; exists buf, text; split; reflexivity.
  - split; [intros; discriminate|].
    split; [intros b e Hb Hv; injection Hb as <-; rewrite V in Hv; discriminate|].
    split; [intros b d Hb _ _; injection Hb as <-; reflexivity|].
    split; [intros b text _ H; discriminate | intros H; discriminate].
Qed.

(** X19.  When the answer is not a 200 and deleting the upload would
    itself succeed, the handler has not tried to delete it: after a failed
    request the temporary file is still there. *)
Theorem failed_request_keeps_upload (w : World) (f : File) :
  status (snd (traced w (Some f))) <> 200 ->
  unlinkSync w (path f) = Normal tt ->
  forall q, ~ In (ExtractTextTrace.Unlink q) (fst (traced w (Some f))).
Proof.
  unfold ExtractTextTrace.extract_text, ExtractTextTrace.pipeline,
    ExtractTextTrace.ocr, ExtractTextTrace.translate,
    ExtractTextTrace.andThen, ExtractTextTrace.perform, ExtractTextTrace.silent.
  intros Hs Hu q.
  destruct (readFileSync w (path f)) as [buf|]; cbn [bind fst app] in *.
  2:{ intros [H|[]]; discriminate. }
  destruct (visionPost w buf) as [data|]; cbn [bind fst app] in *.
  2:{ intros [H|[H|[]]]; discriminate. }
  destruct (afterVision data) as [[r|text]|]; cbn [bind fst app] in *;
    try (intros [H|[H|[]]]; discriminate).
  destruct (translatorPost w text) as [tdata|]; cbn [bind fst app] in *.
  2:{ intros [H|[H|[H|[]]]]; discriminate. }
  destruct (raw <- toString tdata ;; translatedText JSON_parse raw) as [t|];
    cbn [bind fst app] in *.
  2:{ intros [H|[H|[H|[]]]]; discriminate. }
  rewrite Hu in Hs; cbn [snd status complete] in Hs; congruence.
Qed.

(** X20.  A 200 stands for a complete run: the body holds both texts, the
    extracted text is not empty and is the one sent to the translator, the
    translated text is truthy (so not an empty string), and the upload
    has been deleted. *)
Theorem success_needs_every_stage (w : World) (f : File) :
  status (extract_text w (Some f)) = 200 ->
  exists text tdata translated,
    extract_text w (Some f) = complete text translated /\
    ExtractText.ocr JSON_parse Number_toString w (path f) = Normal (inr text) /\
    text <> [] /\
    translatorPost w text = Normal tdata /\
    (raw <- toString tdata ;; translatedText JSON_parse raw) = Normal translated /\
    truthy translated = true /\
    unlinkSync w (path f) = Normal tt.
Proof.
  unfold ExtractText.extract_text, ExtractText.pipeline.
  rewrite ocr_afterVision.
  destruct (readFileSync w (path f)) as [buf|]; cbn [bind]; [|discriminate].
  destruct (visionPost w buf) as [data|]; cbn [bind]; [|discriminate].
  destruct (afterVision data) as [[r|text]|] eqn:A; cbn [bind]; [| |discriminate].
  - rewrite (afterVision_answered data r A); discriminate.
  - rewrite translate_unfold.
    destruct (translatorPost w text) as [tdata|] eqn:P; cbn [bind]; [|discriminate].
    destruct (raw <- toString tdata ;; translatedText JSON_parse raw)
      as [translated|] eqn:T; cbn [bind]; [|discriminate].
    destruct (unlinkSync w (path f)) as [[]|] eqn:U; cbn [bind]; [|discriminate].
    intros _; exists text, tdata, translated.
    destruct (afterVision_text data text A) as [Ht _].
    assert (Tt : truthy translated = true).
    { destruct (toString tdata) as [raw|]; cbn [bind] in T; [|discriminate].
      unfold ExtractText.translatedText in T.
      destruct (cleanJsonString raw) as [clean|]; cbn [bind] in T; [|discriminate].
      destruct (ExtractText.parse JSON_parse clean) as [d|]; cbn [bind] in T;
        [|discriminate].
      exact (translatedTextOf_truthy d translated T). }
    repeat split; assumption.
Qed.

End TraceFacts.

(** ** [/extract-text]: from a well-formed OCR reply to the text *)

Section WellFormedReply.

Variable JSON_parse : jsstring -> option JSON.
Variable Number_toString : float -> jsstring.

Import ExtractText OcrReply.

(** X21.  When the upload is read, the OCR provider answers with a text
    whose part from the first brace parses to an object with well-formed
    regions, the text that goes on to the translator is what the loop
    collects, trimmed; when that is empty (no regions, no lines or no
    words), the request fails with the error for no text. *)
Theorem ocr_text_of_well_formed_reply (w : World) (f : File)
  (imageBuffer : Buffer) (rawResponse : jsstring)
  (members : list (jsstring * JSON)) (regions : list JSON)
  (lines : list (list (list jsstring))) :
  readFileSync w (path f) = Normal imageBuffer ->
  visionPost w imageBuffer = Normal (JString rawResponse) ->
  JSON_parse (jsonString rawResponse) = Some (JObject members) ->
  lookup members (js "regions") = Some (JArray regions) ->
  Forall2 RegionOf regions lines ->
  let collected := List.concat (List.map lineString (List.concat lines)) in
  ExtractText.ocr JSON_parse Number_toString w (path f)
  = match trim collected with
    | [] => Throw (Error (js "No text extracted from the image."))
    | c :: s => Normal (inr (c :: s))
    end.
Proof.
  intros R V P L F collected.
  unfold ExtractText.ocr; rewrite R; cbn [bind]; rewrite V; cbn [bind toString ToString].
  unfold visionData, ExtractText.parse; rewrite P; cbn [bind].
  unfold invalidVision; cbn [truthy prop negb orb]; rewrite L.
  cbn [truthy_opt truthy isArray negb orb asArray bind].
  rewrite (forEachRegion_collects Number_toString regions lines F []); cbn [bind app].
  fold collected; destruct (trim collected); reflexivity.
Qed.

End WellFormedReply.

(** ** The further properties at concrete inputs *)

Module MoreWitnesses.

Import Samples MoreSamples.

Lemma ask_provider_failure_witness :
  Chat.ask createFails messageOf bodyHello
  = ({| status := 500;
        body := JObject
          [(js "error", JString (js "Failed to fetch response from Claude"));
           (js "details", JString (js "529 overloaded"))] |},
     [Chat.ask_request (Some (JString (js "  Hello  ")))]).
Proof.
  apply (ask_provider_failure createFails messageOf bodyHello (js "  Hello  ")
           overloaded);
    [discriminate | reflexivity | vm_compute; discriminate | reflexivity].
Defined.

Lemma ask_calls_provider_iff_valid_witness :
  snd (Chat.ask createReplies engineMessage bodyHello)
  = [{| Chat.model := js "claude-3-5-sonnet-20241022";
        Chat.max_tokens := 1024;
        Chat.content := Some (JString (js "  Hello  ")) |}].
Proof.
  apply (proj1 (ask_calls_provider_iff_valid createReplies engineMessage bodyHello
                  ltac:(discriminate))).
Defined.

Lemma test_api_content_not_array_witness :
  fst (Chat.test_api JsonText.number_toString createText messageOf OcrVariant 0 5)
  = {| status := 500;
       body := JObject
         [(js "status", JString (js "error"));
          (js "error", JString (js "message.content.join is not a function"))] |}.
Proof.
  apply (proj2 (test_api_content_not_array JsonText.number_toString createText
                  messageOf 0 5 {| Chat.message_content := JString (js "Hello") |}
                  eq_refl)); reflexivity.
Defined.

Lemma test_api_joins_blocks_witness :
  fst (Chat.test_api JsonText.number_toString createReplies engineMessage
         OcrVariant 0 5)
  = {| status := 200;
       body := JObject
         [(js "status", JString (js "success"));
          (js "responseTime", JNumber (Number_of_Z (5 - 0)));
          (js "content", JString (js "[object Object]"))] |}.
Proof.
  apply (test_api_joins_blocks JsonText.number_toString createReplies
           engineMessage 0 5 reply [textBlock]); [reflexivity | reflexivity |].
  repeat constructor; eexists; split; reflexivity.
Defined.

Lemma get_images_status_200_witness :
  Storage.failure listingMixed = None /\
  exists urls,
    urls <> [] /\
    body (fst (Storage.get_images signer errorMessage clockFrom listingMixed))
    = JArray (List.map JString urls) /\
    Forall2 (fun r u => signer r = Normal u)
      (Storage.expected_requests clockFrom 0
         (filter Storage.image_regex (Storage.names listingMixed))) urls /\
    snd (Storage.get_images signer errorMessage clockFrom listingMixed)
    = Storage.expected_requests clockFrom 0
        (filter Storage.image_regex (Storage.names listingMixed)).
Proof.
  apply (get_images_status_200 signer errorMessage clockFrom listingMixed).
  vm_compute; reflexivity.
Defined.

Lemma get_images_status_404_witness :
  status (fst (Storage.get_images signer errorMessage clockFrom listingNoImages)) = 404.
Proof.
  apply (proj2 (get_images_status_404 signer errorMessage clockFrom listingNoImages)).
  split; reflexivity.
Defined.

Lemma get_images_listing_failure_witness :
  Storage.get_images signer errorMessage clockFrom listingBroken
  = ({| status := 500;
        body := error_body
                  (errorMessage (ProviderError (js "ECONNRESET") None None)) |},
     Storage.expected_requests clockFrom 0
       (filter Storage.image_regex (Storage.names listingBroken))).
Proof.
  apply (get_images_listing_failure signer errorMessage clockFrom listingBroken urlOf);
    [reflexivity | intros r; reflexivity].
Defined.

Lemma get_images_signer_failure_witness :
  Storage.get_images signerRefusesDog messageOf clockFrom listingThree
  = ({| status := 500; body := error_body (js "AuthorizationFailure") |},
     Storage.expected_requests clockFrom 0 [js "cat.JPG"; js "dog.jpeg"]).
Proof.
  apply (get_images_signer_failure signerRefusesDog messageOf clockFrom listingThree
           [js "cat.JPG"] [js "owl.png"] (js "dog.jpeg") denied);
    [reflexivity | reflexivity | | reflexivity].
  intros r [<-|[]]; eexists; reflexivity.
Defined.

Lemma image_regex_last_dot_witness :
  Storage.image_regex (js "photo.tar" ++ 46%N :: js "PNG") = true.
Proof.
  apply (proj1 MoreRegexFacts.image_regex_last_dot (js "photo.tar") (js "PNG"));
    [reflexivity | vm_compute; tauto].
Defined.

Lemma first_missing_key_is_reported_witness :
  Bootstrap.main envTwoMissing
  = [Bootstrap.ConsoleError
       (js "X Missing environment variable: " ++ js "AZURE_STORAGE_ACCOUNT_KEY");
     Bootstrap.Exit 1].
Proof.
  apply (MoreBootstrapFacts.first_missing_key_is_reported envTwoMissing
           [js "ANTHROPIC_API_KEY"; js "AZURE_STORAGE_ACCOUNT_NAME"]
           [js "AZURE_CONTAINER_NAME"] (js "AZURE_STORAGE_ACCOUNT_KEY"));
    [reflexivity | | left; reflexivity].
  intros k [<-|[<-|[]]]; eexists; eexists; reflexivity.
Defined.

Lemma cleanJsonString_without_closing_bracket_witness :
  ExtractText.cleanJsonString truncatedReply = Normal [] /\
  ExtractText.translatedText JsonText.parse truncatedReply
  = bind (ExtractText.parse JsonText.parse []) ExtractText.translatedTextOf.
Proof.
  apply (cleanJsonString_without_closing_bracket JsonText.parse wrapperBefore
           (jsq "{'translations':")); reflexivity.
Defined.

Lemma invalidVision_spec_witness :
  ExtractText.invalidVision (JObject [(js "regions", JArray [])]) = false.
Proof.
  apply (proj2 (invalidVision_spec (JObject [(js "regions", JArray [])]))).
  eexists; eexists; split; reflexivity.
Defined.

Lemma translatedTextOf_success_witness :
  ExtractText.translatedTextOf twoTranslations = Normal (JString (js "Hello")).
Proof.
  apply (proj2 (translatedTextOf_success twoTranslations (JString (js "Hello")))).
  eexists; eexists; eexists; repeat split; reflexivity.
Defined.

Lemma forEachRegion_of_witness :
  ExtractText.forEachRegion JsonText.number_toString twoRegions []
  = Normal (js "Hola mundo adios fin ").
Proof.
  apply (forEachRegion_of JsonText.number_toString twoRegions
           [[[js "Hola"; js "mundo"]; [js "adios"]]; [[js "fin"]]]).
  repeat constructor; apply region_RegionOf.
Defined.

Lemma extract_text_calls_in_order_witness :
  fst (ExtractTextTrace.extract_text JsonText.parse JsonText.number_toString
         worldTranslatorDown (Some upload))
  = [ExtractTextTrace.ReadFile (ExtractText.path upload);
     ExtractTextTrace.VisionPost [137%N; 80%N];
     ExtractTextTrace.TranslatorPost (js "Hola mundo")].
Proof.
  destruct (extract_text_calls_in_order JsonText.parse JsonText.number_toString
              worldTranslatorDown upload) as [_ [_ [_ [H _]]]].
  destruct (H [137%N; 80%N] (js "Hola mundo") eq_refl
              ltac:(vm_compute; reflexivity)) as [_ [T _]].
  exact (T (ProviderError (js "Request failed with status code 503") None None)
           eq_refl).
Defined.

Lemma failed_request_keeps_upload_witness :
  ~ In (ExtractTextTrace.Unlink (ExtractText.path upload))
      (fst (ExtractTextTrace.extract_text JsonText.parse JsonText.number_toString
              worldTranslatorDown (Some upload))).
Proof.
  apply (failed_request_keeps_upload JsonText.parse JsonText.number_toString
           worldTranslatorDown upload);
    [vm_compute; discriminate | reflexivity].
Defined.

Lemma success_needs_every_stage_witness :
  exists text tdata translated,
    ExtractText.extract_text JsonText.parse JsonText.number_toString
      worldFine (Some upload)
    = ExtractText.complete text translated /\
    ExtractText.ocr JsonText.parse JsonText.number_toString worldFine
      (ExtractText.path upload) = Normal (inr text) /\
    text <> [] /\
    ExtractText.translatorPost worldFine text = Normal tdata /\
    (raw <- toString JsonText.number_toString tdata ;;
     ExtractText.translatedText JsonText.parse raw) = Normal translated /\
    truthy translated = true /\
    ExtractText.unlinkSync worldFine (ExtractText.path upload) = Normal tt.
Proof.
  apply (success_needs_every_stage JsonText.parse JsonText.number_toString
           worldFine upload).
  vm_compute; reflexivity.
Defined.

Lemma ocr_text_of_well_formed_reply_witness :
  ExtractText.ocr JsonText.parse JsonText.number_toString worldFine
    (ExtractText.path upload)
  = Normal (inr (js "Hola mundo")).
Proof.
  apply (ocr_text_of_well_formed_reply JsonText.parse JsonText.number_toString
           worldFine upload [137%N; 80%N; 78%N; 71%N] (ocrPrefix ++ ocrObject)
           ocrMembers ocrRegions [[[js "Hola"; js "mundo"]]]);
    [reflexivity | reflexivity | vm_compute; reflexivity | reflexivity |].
  repeat constructor.
  eexists; split; [reflexivity|].
  repeat constructor.
  eexists; split; [reflexivity|].
  repeat constructor.
Defined.

End MoreWitnesses.
